(** * Verification of the request wrapper [src/core/request]

    The development embeds [src/core/request/index.ts] and
    [src/core/request/token.ts]:

    - [PathVariables]: [replacePathVariables], together with the part of
      [String.prototype.replace] it relies on;
    - [Js]: the values exchanged with the collaborators (token records,
      transport configuration and results, error objects, envelopes);
    - [Effects]: the world the wrapper runs in (the [localStorage] item, the
      clock, the transport, the refresh endpoint, the notifier) as a state
      monad over a trace of interactions;
    - [Orchestrator]: [getToken], [setToken], [deleteToken],
      [isTokenExpired], [isRefreshTokenExpired] and [request];
    - [Observations] and [Scenarios]: the vocabulary of the statements and
      the concrete worlds they are tried on;
    - [PathVariablesFacts], [RequestFacts], [RequestClaims]: the properties.

    JavaScript strings are kept as [string]s of bytes (UTF-8).  Every
    character the code inspects is ASCII, and the bytes of a non-ASCII
    character are all above 127, so the byte view and the UTF-16 view agree on
    everything below. *)

From Stdlib Require Import ZArith Ascii String DecimalString Lia.
From stdpp Require Import base option list strings gmap.

Local Open Scope string_scope.
Local Open Scope Z_scope.
Local Open Scope list_scope.
#[local] Set Warnings "-register-all".

(* ================================================================== *)
(** * Path variable substitution *)
(* ================================================================== *)

Module PathVariables.

(** A path-variable value is [string | number]; numbers are the integers the
    code base passes as identifiers (their decimal rendering is what
    [String(v)] produces, below 10^21). *)
Inductive PathValue :=
| PVString (s : string)
| PVNumber (n : Z).

(** [String(v)] *)
Definition String_ (v : PathValue) : string :=
  match v with
  | PVString s => s
  | PVNumber n => NilZero.string_of_int (Z.to_int n)
  end.

(** The own enumerable keys of the [pathVariables] object with their values,
    in the order [for (const key in pathVariables)] visits them. *)
Definition PathVariables := list (string * PathValue).

(** ** The regular expression [/:([a-zA-Z0-9_]+)/g] *)

Definition between (lo hi : N) (c : ascii) : bool :=
  let n := N_of_ascii c in ((lo <=? n) && (n <=? hi))%N.

(** The character class [[a-zA-Z0-9_]]. *)
Definition isWordChar (c : ascii) : bool :=
  between 97 122 c || between 65 90 c || between 48 57 c || Ascii.eqb c "_".

Definition isColon (c : ascii) : bool := Ascii.eqb c ":".

(** The longest prefix made of word characters: what the greedy group
    [([a-zA-Z0-9_]+)] captures when the prefix is not empty. *)
Fixpoint takeWord (s : string) : string :=
  match s with
  | String c r => if isWordChar c then String c (takeWord r) else EmptyString
  | EmptyString => EmptyString
  end.

Fixpoint dropChars (n : nat) (s : string) : string :=
  match n, s with
  | S k, String _ r => dropChars k r
  | _, _ => s
  end.

(** ** [GetSubstitution] for a replacement string

    [String.prototype.replace] does not insert its second argument verbatim:
    the dollar patterns are expanded against the match.  The pattern has one
    capture group and no named group. *)

Definition digitValue (c : ascii) : option N :=
  if between 48 57 c then Some (N_of_ascii c - 48)%N else None.

Section GetSubstitution.
Variables matched capture before after : string.

Fixpoint getSubstitution (template : string) : string :=
  match template with
  | EmptyString => EmptyString
  | String c rest1 =>
    if negb (Ascii.eqb c "$") then String c (getSubstitution rest1) else
    match rest1 with
    | EmptyString => String c EmptyString
    | String d1 rest2 =>
      if Ascii.eqb d1 "$" then String "$" (getSubstitution rest2)
      else if Ascii.eqb d1 "&" then String.append matched (getSubstitution rest2)
      else if Ascii.eqb d1 "`" then String.append before (getSubstitution rest2)
      else if Ascii.eqb d1 "'" then String.append after (getSubstitution rest2)
      else match digitValue d1 with
      | Some n1 =>
        (* one capture: a two-digit reference is [00] or [01], anything
           larger falls back to the one-digit reference *)
        match rest2 with
        | String d2 rest3 =>
          match digitValue d2 with
          | Some n2 =>
            if (n1 =? 0)%N && (n2 =? 1)%N
            then String.append capture (getSubstitution rest3)
            else if (n1 =? 0)%N && (n2 =? 0)%N
            then String c (String d1 (String d2 (getSubstitution rest3)))
            else if (n1 =? 1)%N
            then String.append capture (getSubstitution rest2)
            else String c (String d1 (getSubstitution rest2))
          | None =>
            if (n1 =? 1)%N
            then String.append capture (getSubstitution rest2)
            else String c (String d1 (getSubstitution rest2))
          end
        | EmptyString =>
          if (n1 =? 1)%N then capture else String c (String d1 EmptyString)
        end
      | None =>
        (* [$<] without named groups, or a lone dollar sign: the dollar
           sign stands for itself *)
        String c (getSubstitution rest1)
      end
    end
  end.
End GetSubstitution.

(** ** [url.replace(/:([a-zA-Z0-9_]+)/g, replacement)]

    [skip] counts the characters of the current match that are still to be
    passed over; [before] is the part of the subject already scanned. *)
Fixpoint replaceFrom (replacement : string) (skip : nat) (before s : string)
  : string :=
  match s with
  | EmptyString => EmptyString
  | String c r =>
    match skip with
    | S k => replaceFrom replacement k (String.append before (String c EmptyString)) r
    | O =>
      let name := takeWord r in
      if isColon c && negb (String.eqb name EmptyString) then
        String.append
          (getSubstitution (String c name) name before
             (dropChars (String.length name) r) replacement)
          (replaceFrom replacement (String.length name)
             (String.append before (String c EmptyString)) r)
      else
        String c (replaceFrom replacement O
                    (String.append before (String c EmptyString)) r)
    end
  end.

Definition replacePlaceholders (url replacement : string) : string :=
  replaceFrom replacement O EmptyString url.

(** ** [replacePathVariables]

    The loop body assigns [requestUrl] from [url], not from [requestUrl]:
    each iteration starts again from the template. *)
Fixpoint replacePathVariables_loop (url requestUrl : string)
    (entries : PathVariables) : string :=
  match entries with
  | [] => requestUrl
  | (key, value) :: rest =>
    replacePathVariables_loop url (replacePlaceholders url (String_ value)) rest
  end.

Definition replacePathVariables (url : string) (pathVariables : PathVariables)
  : string :=
  replacePathVariables_loop url url pathVariables.

(** A template is free of placeholders when no colon is followed by a word
    character. *)
Fixpoint placeholderFree (s : string) : bool :=
  match s with
  | EmptyString => true
  | String c r =>
    negb (isColon c && negb (String.eqb (takeWord r) EmptyString))
    && placeholderFree r
  end.

(** A replacement string without dollar sign: [GetSubstitution] has nothing
    to expand in it. *)
Fixpoint dollarFree (s : string) : bool :=
  match s with
  | EmptyString => true
  | String c r => negb (Ascii.eqb c "$") && dollarFree r
  end.

(** A non-empty run of word characters: the name of a placeholder. *)
Fixpoint wordChars (s : string) : bool :=
  match s with
  | EmptyString => true
  | String c r => isWordChar c && wordChars r
  end.

Definition isName (s : string) : bool :=
  negb (String.eqb s EmptyString) && wordChars s.

Definition startsWithWordChar (s : string) : bool :=
  match s with
  | String c _ => isWordChar c
  | EmptyString => false
  end.

End PathVariables.

(* ================================================================== *)
(** * Values exchanged with the collaborators *)
(* ================================================================== *)

Module Js.

(** JavaScript values, for the payloads the wrapper passes through without
    looking inside ([T], [D] and [Q] of [Request]) and for the fields of an
    error object, which are untyped ([error: any]). *)
Inductive JsValue :=
| JUndefined
| JNull
| JBoolean (b : bool)
| JNumber (n : Z)
| JString (s : string)
| JArray (items : list JsValue)
| JObject (fields : list (string * JsValue)).

(** Modelled from the spec: the declaration of [InternalToken.Token] is not
    part of the sources; the token record is
    [{ access: string, refresh: string, accessExpiredAt: timestamp,
       refreshExpiredAt: timestamp }], timestamps in milliseconds as
    [Date.now()] counts them. *)
Record Token := {
  access : string;
  refresh : string;
  accessExpiredAt : Z;
  refreshExpiredAt : Z
}.

(** What [getToken] hands out: the parsed record, or the object literal
    [{}] of its second branch, none of whose fields is defined. *)
Inductive TokenValue :=
| EmptyObject
| TokenObject (t : Token).

(** [if (token ...)]: an object is truthy, the empty one included. *)
Definition truthy (token : TokenValue) : bool :=
  match token with
  | EmptyObject => true
  | TokenObject _ => true
  end.

(** Field reads; [None] is [undefined]. *)
Definition token_access (token : TokenValue) : option string :=
  match token with TokenObject t => Some (access t) | EmptyObject => None end.
Definition token_refresh (token : TokenValue) : option string :=
  match token with TokenObject t => Some (refresh t) | EmptyObject => None end.
Definition token_accessExpiredAt (token : TokenValue) : option Z :=
  match token with TokenObject t => Some (accessExpiredAt t) | EmptyObject => None end.
Definition token_refreshExpiredAt (token : TokenValue) : option Z :=
  match token with TokenObject t => Some (refreshExpiredAt t) | EmptyObject => None end.

(** [now > x], where a comparison with [undefined] is false. *)
Definition gt (now : Z) (x : option Z) : bool :=
  match x with
  | Some v => v <? now
  | None => false
  end.

(** [`${x}`] for a string or [undefined]. *)
Definition interpolate (x : option string) : string :=
  match x with
  | Some s => s
  | None => "undefined"
  end.

(** [x || fallback] for a string or [undefined]: the empty string is falsy. *)
Definition or_else (x : option string) (fallback : string) : string :=
  match x with
  | Some s => if String.eqb s EmptyString then fallback else s
  | None => fallback
  end.

(** ** The request descriptor and what is handed to the transport *)

(** [...config]: the transport options that remain after the destructuring;
    [headers] is the only one the wrapper looks at, [others] are all further
    own properties ([method], [data], [baseURL], ...). *)
Record Config := {
  headers : option (gmap string string);
  others : list (string * JsValue)
}.

Record RequestConfig := {
  url : string;
  ignoreAuth : bool;   (* an absent flag is falsy *)
  silentError : bool;
  throwError : bool;
  params : JsValue;
  pathVariables : option PathVariables.PathVariables;
  config : Config
}.

(** The argument of [axios(...)]: [{ ...config, url: requestUrl, params }]. *)
Record AxiosRequestConfig := {
  sent_config : Config;
  sent_url : string;
  sent_params : JsValue
}.

(** [config.headers = { ...config.headers, Authorization: value }] *)
Definition withAuthorization (value : string) (c : Config) : Config :=
  {| headers := Some (<["Authorization" := value]> (default ∅ (headers c)));
     others := others c |}.

(** The [Authorization] header of a configuration, if it has one. *)
Definition authorization (c : Config) : option string :=
  default ∅ (headers c) !! "Authorization".

(** ** Results *)

(** The body of a response, [Response<T>] as the server sends it; the wrapper
    reads [data] and [errorMessage]. *)
Record ResponseBody := {
  body_data : JsValue;
  body_errorMessage : option string
}.

Record AxiosResponse := {
  status : Z;
  data : ResponseBody
}.

(** [error.response] of a transport error: its status and
    [error.response.data?.message]. *)
Record ErrorResponse := {
  err_status : Z;
  err_data_message : option string
}.

(** An error object: [response] is absent on a plain [Error]. *)
Record JsError := {
  response : option ErrorResponse;
  code : JsValue;
  message : JsValue
}.

(** [new Error(msg)] *)
Definition Error_ (msg : string) : JsError :=
  {| response := None; code := JUndefined; message := JString msg |}.

(** How the promise of [axios(...)] settles. *)
Inductive AxiosSettled :=
| AxiosFulfilled (r : AxiosResponse)
| AxiosRejected (error : JsError).

(** Modelled from the spec: [refreshToken] of [@/api/interface/auth] is not
    part of the sources; it "accepts [{refreshToken: string}], returns a
    promise resolving to [{success: boolean, data: TokenRecord}] or
    rejecting". *)
Record RefreshReply := {
  success : bool;
  reply_data : Token
}.

(** How the promise of [refreshToken(...)] settles; [None] is a falsy
    resolution value, which [newToken && ...] allows for. *)
Inductive RefreshSettled :=
| RefreshFulfilled (newToken : option RefreshReply)
| RefreshRejected (refreshError : JsError).

(** [Response<T>] *)
Inductive Response :=
| Success (data : JsValue)
| Failure (errorCode errorMessage : JsValue).

(** How the promise of [request(args)] settles. *)
Inductive Outcome :=
| Resolved (r : Response)
| Rejected (error : JsError).

End Js.

(* ================================================================== *)
(** * The world around [request] *)
(* ================================================================== *)

Module Effects.
Import Js.

(** One interaction of the wrapper with a collaborator, with the answer it
    got. *)
Inductive Event :=
| GetItem (stored : option Token)          (* localStorage.getItem('token') *)
| SetItem (token : Token)                  (* localStorage.setItem('token', ...) *)
| RemoveItem                               (* localStorage.removeItem('token') *)
| DateNow (now : Z)                        (* Date.now() *)
| Axios (sent : AxiosRequestConfig) (settled : AxiosSettled)
| RefreshToken (refreshToken : option string) (settled : RefreshSettled)
| ShowError (message : string).            (* defaultErrorHandler.showError *)

(** The state a call runs in: the [token] item of [localStorage] ([None]
    when the item is absent; the stored text is the JSON of a token record,
    which [JSON.parse] gives back as it was written), and the interactions so
    far, oldest first. *)
Record World := {
  storage : option Token;
  history : list Event
}.

(** The collaborators outside the wrapper.  Each answers from the
    interactions that came before, so that a clock may advance and a server
    may answer the retried call differently from the first.  Both promises
    settle, and while a call waits for them nothing else writes the [token]
    item: a single call is followed, not several interleaved ones. *)
Record Env := {
  clock : list Event -> Z;
  axios : list Event -> AxiosRequestConfig -> AxiosSettled;
  refreshToken : list Event -> option string -> RefreshSettled
}.

Definition M (A : Type) : Type := World -> A * World.

Definition ret {A} (a : A) : M A := fun w => (a, w).

Definition bind {A B} (m : M A) (k : A -> M B) : M B :=
  fun w => let (a, w') := m w in k a w'.

Definition record (e : Event) (w : World) : World :=
  {| storage := storage w; history := history w ++ [e] |}.

Definition when (b : bool) (m : M unit) : M unit :=
  if b then m else ret tt.

End Effects.

Declare Scope request_scope.
Delimit Scope request_scope with request.
Notation "'let*' x ':=' m 'in' k" :=
  (Effects.bind m (fun x => k))
  (at level 10, x name, m at level 100, k at level 200) : request_scope.
Notation "m ';;' k" :=
  (Effects.bind m (fun _ => k))
  (at level 100, k at level 200, right associativity) : request_scope.

(* ================================================================== *)
(** * [token.ts] and [index.ts] *)
(* ================================================================== *)

Module Orchestrator.
Import Js Effects.
Local Open Scope request_scope.

Section Request.
Variable env : Env.

(** ** Collaborator calls *)

Definition Date_now : M Z :=
  fun w => let now := clock env (history w) in (now, record (DateNow now) w).

Definition axios_ (sent : AxiosRequestConfig) : M AxiosSettled :=
  fun w => let settled := axios env (history w) sent in
           (settled, record (Axios sent settled) w).

Definition refreshToken_ (refreshToken : option string) : M RefreshSettled :=
  fun w => let settled := Effects.refreshToken env (history w) refreshToken in
           (settled, record (RefreshToken refreshToken settled) w).

Definition showError (message : string) : M unit :=
  fun w => (tt, record (ShowError message) w).

(** ** [token.ts] *)

Definition getToken : M TokenValue :=
  fun w =>
    let tokenStr := storage w in
    (match tokenStr with
     | Some t => TokenObject t
     | None => EmptyObject
     end, record (GetItem tokenStr) w).

Definition setToken (token : Token) : M unit :=
  fun w => (tt, {| storage := Some token;
                   history := history w ++ [SetItem token] |}).

Definition deleteToken : M unit :=
  fun w => (tt, {| storage := None; history := history w ++ [RemoveItem] |}).

(** ** The expiry predicates *)

Definition isTokenExpired (token : TokenValue) : M bool :=
  let* now := Date_now in
  ret (gt now (token_accessExpiredAt token)
       || gt now (token_refreshExpiredAt token)).

Definition isRefreshTokenExpired (token : TokenValue) : M bool :=
  let* now := Date_now in
  ret (gt now (token_refreshExpiredAt token)).

(** ** [request] *)

(** What one run of the body of [request] ends with: a settled promise, or
    [return request(args)], whose promise the caller adopts. *)
Inductive Step :=
| Return (o : Outcome)
| Retry.

(** The [try] block after the [await]: the envelope it returns or the error
    it throws. *)
Definition tryBlock (settled : AxiosSettled) : Response + JsError :=
  match settled with
  | AxiosFulfilled response =>
    if status response =? 200
    then inl (Success (body_data (data response)))
    else inr (Error_ (or_else (body_errorMessage (data response)) "请求失败"))
  | AxiosRejected error => inr error
  end.

(** [error.response && error.response.status === 401] *)
Definition is401 (error : JsError) : bool :=
  match response error with
  | Some r => err_status r =? 401
  | None => false
  end.

(** The inside of [if (... === 401 && !ignoreAuth) { ... }]; [None] when
    control leaves the block without returning or throwing. *)
Definition refreshProtocol (args : RequestConfig) : M (option Step) :=
  let* currentToken := getToken in
  let* expired :=
    (if truthy currentToken then isTokenExpired currentToken else ret false) in
  if expired then
    let* refreshExpired := isRefreshTokenExpired currentToken in
    if refreshExpired then
      deleteToken ;;
      when (negb (silentError args))
        (showError "刷新令牌已过期，请重新登录") ;;
      if throwError args
      then ret (Some (Return (Rejected (Error_ "刷新令牌已过期"))))
      else ret (Some (Return (Resolved
             (Failure (JNumber 401) (JString "刷新令牌已过期")))))
    else
      let* settled := refreshToken_ (token_refresh currentToken) in
      match settled with
      | RefreshFulfilled (Some newToken) =>
        if success newToken then
          setToken (reply_data newToken) ;;
          ret (Some Retry)
        else ret None
      | RefreshFulfilled None => ret None
      | RefreshRejected refreshError =>
        deleteToken ;;
        when (negb (silentError args))
          (showError "刷新令牌失败，请重新登录") ;;
        if throwError args
        then ret (Some (Return (Rejected refreshError)))
        else ret (Some (Return (Resolved
               (Failure (JNumber 401) (JString "刷新令牌失败")))))
      end
  else ret None.

(** The end of the [catch] block: "请求失败时，弹出错误提示". *)
Definition reportFailure (args : RequestConfig) (error : JsError) : M Outcome :=
  when (negb (silentError args))
    (showError (or_else (r ← response error; err_data_message r) "请求失败")) ;;
  if throwError args
  then ret (Rejected error)
  else ret (Resolved (Failure (code error) (message error))).

Definition catchBlock (args : RequestConfig) (error : JsError) : M Step :=
  let* left :=
    (if is401 error && negb (ignoreAuth args)
     then refreshProtocol args else ret None) in
  match left with
  | Some step => ret step
  | None => let* o := reportFailure args error in ret (Return o)
  end.

(** The configuration and the address the body of [request] dispatches. *)
Definition dispatched (args : RequestConfig) (token : TokenValue)
  : AxiosRequestConfig :=
  let config :=
    if truthy token && negb (ignoreAuth args)
    then withAuthorization ("Bearer " +:+ interpolate (token_access token))
           (config args)
    else config args in
  let requestUrl :=
    match pathVariables args with
    | Some pv => PathVariables.replacePathVariables (url args) pv
    | None => url args
    end in
  {| sent_config := config; sent_url := requestUrl; sent_params := params args |}.

(** One run of the body of [request]. *)
Definition request_body (args : RequestConfig) : M Step :=
  let* token := getToken in
  let* settled := axios_ (dispatched args token) in
  match tryBlock settled with
  | inl envelope => ret (Return (Resolved envelope))
  | inr error => catchBlock args error
  end.

(** [request]: the body, run again for every [return request(args)].  The
    source has no bound on the retries; [fuel] is the number of runs the
    model follows, and [None] means that they did not suffice. *)
Fixpoint request (fuel : nat) (args : RequestConfig) (w : World)
  : option (Outcome * World) :=
  match fuel with
  | O => None
  | S fuel' =>
    match request_body args w with
    | (Return o, w') => Some (o, w')
    | (Retry, w') => request fuel' args w'
    end
  end.

End Request.
End Orchestrator.

(* ================================================================== *)
(** * Vocabulary of the statements *)
(* ================================================================== *)

Module Observations.
Import Js Effects Orchestrator.

(** The value [getToken] reads in a world. *)
Definition stored (w : World) : TokenValue :=
  match storage w with
  | Some t => TokenObject t
  | None => EmptyObject
  end.

(** The interactions on record when the body of [request], started in [w],
    reaches [axios(...)], and how the transport settles that dispatch. *)
Definition atDispatch (w : World) : list Event :=
  history w ++ [GetItem (storage w)].

Definition transportAnswer (env : Env) (args : RequestConfig) (w : World)
  : AxiosSettled :=
  axios env (atDispatch w) (dispatched args (stored w)).

(** The world right after the dispatch. *)
Definition afterDispatch (env : Env) (args : RequestConfig) (w : World) : World :=
  {| storage := storage w;
     history := history w ++
       [GetItem (storage w);
        Axios (dispatched args (stored w)) (transportAnswer env args w)] |}.

(** Projections of a trace. *)
Definition dispatches (h : list Event) : list AxiosRequestConfig :=
  omap (fun e => match e with Axios sent _ => Some sent | _ => None end) h.

Definition refreshCalls (h : list Event) : list (option string) :=
  omap (fun e => match e with RefreshToken r _ => Some r | _ => None end) h.

Definition notifications (h : list Event) : list string :=
  omap (fun e => match e with ShowError m => Some m | _ => None end) h.

Definition isStoreWrite (e : Event) : bool :=
  match e with
  | SetItem _ | RemoveItem => true
  | _ => false
  end.

Definition storeWrites (h : list Event) : list Event :=
  List.filter isStoreWrite h.

(** The interactions a computation added to a trace. *)
Definition since (w w' : World) : list Event :=
  drop (length (history w)) (history w').

Definition extend (w : World) (events : list Event) : World :=
  {| storage := storage w; history := history w ++ events |}.

(** ** Generic failure reporting

    What the end of the [catch] block shows, and what it settles with. *)
Definition serverMessage (error : JsError) : string :=
  or_else (r ← response error; err_data_message r) "请求失败".

Definition notice (args : RequestConfig) (message : string) : list Event :=
  if silentError args then [] else [ShowError message].

Definition failureNotice (args : RequestConfig) (error : JsError) : list Event :=
  notice args (serverMessage error).

Definition failureOutcome (args : RequestConfig) (error : JsError) : Outcome :=
  if throwError args then Rejected error
  else Resolved (Failure (code error) (message error)).

(** What the two fixed-message ends settle with. *)
Definition fixedOutcome (args : RequestConfig) (thrown : JsError)
    (errorMessage : string) : Outcome :=
  if throwError args then Rejected thrown
  else Resolved (Failure (JNumber 401) (JString errorMessage)).

(** ** Inside the 401 block, entered in world [w]

    The two readings of the clock, what the two predicates answer, and how
    the refresh endpoint settles. *)
Definition firstReading (env : Env) (w : World) : Z :=
  clock env (history w ++ [GetItem (storage w)]).

Definition tokenExpired (env : Env) (w : World) : bool :=
  gt (firstReading env w) (token_accessExpiredAt (stored w))
  || gt (firstReading env w) (token_refreshExpiredAt (stored w)).

Definition secondReading (env : Env) (w : World) : Z :=
  clock env (history w ++ [GetItem (storage w); DateNow (firstReading env w)]).

Definition refreshTokenExpired (env : Env) (w : World) : bool :=
  gt (secondReading env w) (token_refreshExpiredAt (stored w)).

Definition beforeRefresh (env : Env) (w : World) : list Event :=
  [GetItem (storage w); DateNow (firstReading env w);
   DateNow (secondReading env w)].

Definition refreshAnswer (env : Env) (w : World) : RefreshSettled :=
  refreshToken env (history w ++ beforeRefresh env w) (token_refresh (stored w)).

Definition refreshCall (env : Env) (w : World) : Event :=
  RefreshToken (token_refresh (stored w)) (refreshAnswer env w).

(** ** Conditions of the claims *)

(** A timestamp lies in the past, or has not been passed, at every clock
    reading taken from [w] on. *)
Definition inThePast (env : Env) (w : World) (t : Z) : Prop :=
  forall h, t < clock env (history w ++ h).

Definition notPassed (env : Env) (w : World) (t : Z) : Prop :=
  forall h, clock env (history w ++ h) <= t.

(** The transport rejects the dispatch of this call with a response of
    status 401. *)
Definition receives401 (env : Env) (args : RequestConfig) (w : World)
    (error : JsError) : Prop :=
  transportAnswer env args w = AxiosRejected error /\ is401 error = true.

(** From [w] on, the refresh endpoint resolves with [reply]. *)
Definition refreshResolves (env : Env) (w : World) (reply : option RefreshReply)
  : Prop :=
  forall h r, refreshToken env (history w ++ h) r = RefreshFulfilled reply.

(** From [w] on, the refresh endpoint rejects with [refreshError]. *)
Definition refreshRejects (env : Env) (w : World) (refreshError : JsError)
  : Prop :=
  forall h r, refreshToken env (history w ++ h) r = RefreshRejected refreshError.

(** ** One run of the body *)

(** The run reaches the inside of
    [if (error.response && error.response.status === 401 && !ignoreAuth)]. *)
Definition entersRefreshProtocol (env : Env) (args : RequestConfig) (w : World)
  : bool :=
  match tryBlock (transportAnswer env args w) with
  | inr error => is401 error && negb (ignoreAuth args)
  | inl _ => false
  end.

(** A 401 occurs and both [isTokenExpired] and [isRefreshTokenExpired] answer
    [true]. *)
Definition bothPredicatesTrue (env : Env) (args : RequestConfig) (w : World)
  : bool :=
  entersRefreshProtocol env args w
  && tokenExpired env (afterDispatch env args w)
  && refreshTokenExpired env (afterDispatch env args w).

(** Among the interactions [evs], a call of the refresh endpoint whose promise
    rejected, or resolved with [{success: true, data: t}]. *)
Definition refreshRejectedIn (evs : list Event) : Prop :=
  exists r refreshError, RefreshToken r (RefreshRejected refreshError) ∈ evs.

Definition refreshedIn (evs : list Event) (t : Token) : Prop :=
  exists r newToken,
    RefreshToken r (RefreshFulfilled (Some newToken)) ∈ evs
    /\ success newToken = true /\ reply_data newToken = t.

(** Whenever the run started in [w] ends with [return request(args)], the
    token it has just stored is not expired for [isTokenExpired] when the
    retried run comes to handle a failure. *)
Definition refreshedTokenHolds (env : Env) (args : RequestConfig) (w : World)
  : Prop :=
  forall w', request_body env args w = (Retry, w') ->
    tokenExpired env (afterDispatch env args w') = false.

(** The records a trace wrote to the store. *)
Definition tokensStored (h : list Event) : list Token :=
  omap (fun e => match e with SetItem t => Some t | _ => None end) h.

(** What the interactions of a finished call and its outcome have to do with
    each other. *)
Definition settles (args : RequestConfig) (evs : list Event) (o : Outcome)
  : Prop :=
  (length (notifications evs) <= 1)%nat
  /\ (silentError args = true -> notifications evs = [])
  /\ (throwError args = false -> exists r, o = Resolved r)
  /\ (throwError args = true -> forall r, o = Resolved r -> exists d, r = Success d)
  /\ (forall d, o = Resolved (Success d) ->
      notifications evs = []
      /\ exists sent response,
          last evs = Some (Axios sent (AxiosFulfilled response))
          /\ status response = 200 /\ d = body_data (data response)).

(** The part of a dispatched configuration that does not depend on the
    token. *)
Definition sameRequest (args : RequestConfig) (sent : AxiosRequestConfig) : Prop :=
  sent_url sent = sent_url (dispatched args EmptyObject)
  /\ sent_params sent = params args
  /\ others (sent_config sent) = others (config args).

(** A resolution of the refresh endpoint that [newToken && newToken.success]
    does not accept. *)
Definition declined (reply : option RefreshReply) : bool :=
  match reply with
  | Some newToken => negb (success newToken)
  | None => true
  end.

End Observations.

(* ================================================================== *)
(** * Scenarios *)
(* ================================================================== *)

Module Scenarios.
Import PathVariables Js Effects Orchestrator Observations.

Definition plainConfig : Config := {| headers := None; others := [] |}.

Definition descriptor (ignore silent throw : bool) : RequestConfig :=
  {| url := "/api/:id";
     ignoreAuth := ignore; silentError := silent; throwError := throw;
     params := JUndefined;
     pathVariables := Some [("id", PVString "7")];
     config := plainConfig |}.

(** Tokens, against a clock that reads 1000. *)
Definition lapsed : Token :=
  {| access := "old"; refresh := "r-old";
     accessExpiredAt := 500; refreshExpiredAt := 800 |}.
Definition halfLapsed : Token :=
  {| access := "old"; refresh := "r-old";
     accessExpiredAt := 500; refreshExpiredAt := 9000 |}.
Definition stale : Token :=
  {| access := "stale"; refresh := "r-stale";
     accessExpiredAt := 900; refreshExpiredAt := 9000 |}.
Definition fresh : Token :=
  {| access := "fresh"; refresh := "r-fresh";
     accessExpiredAt := 5000; refreshExpiredAt := 9000 |}.

Definition unauthorized : JsError :=
  {| response := Some {| err_status := 401; err_data_message := Some "unauthorized" |};
     code := JString "ERR_BAD_REQUEST";
     message := JString "Request failed with status code 401" |}.

Definition networkError : JsError :=
  {| response := None; code := JString "ERR_NETWORK";
     message := JString "Network Error" |}.

Definition ok (payload : JsValue) : AxiosSettled :=
  AxiosFulfilled {| status := 200;
                    data := {| body_data := payload; body_errorMessage := None |} |}.

Definition accepts (credential : string) (sent : AxiosRequestConfig) : bool :=
  bool_decide (authorization (sent_config sent) = Some credential).

Definition start (stored : option Token) : World :=
  {| storage := stored; history := [] |}.

(** A server that answers 401 whatever it is sent. *)
Definition alwaysUnauthorized : list Event -> AxiosRequestConfig -> AxiosSettled :=
  fun _ _ => AxiosRejected unauthorized.

(** A server that accepts one credential only. *)
Definition onlyAccepts (credential : string)
  : list Event -> AxiosRequestConfig -> AxiosSettled :=
  fun _ sent => if accepts credential sent then ok (JString "payload")
                else AxiosRejected unauthorized.

Definition refreshYields (t : Token) : list Event -> option string -> RefreshSettled :=
  fun _ _ => RefreshFulfilled (Some {| success := true; reply_data := t |}).

Definition at1000 : list Event -> Z := fun _ => 1000.

(** The server always answers 200. *)
Definition envOk : Env :=
  {| clock := at1000;
     axios := fun _ _ => ok (JString "payload");
     refreshToken := refreshYields fresh |}.

(** 401, and the refresh endpoint hands out a token that is good. *)
Definition envRefreshed : Env :=
  {| clock := at1000;
     axios := onlyAccepts "Bearer fresh";
     refreshToken := refreshYields fresh |}.

(** 401, and nothing the refresh endpoint could do. *)
Definition envUnauthorized : Env :=
  {| clock := at1000;
     axios := alwaysUnauthorized;
     refreshToken := refreshYields fresh |}.

(** 401, and the refresh endpoint answers [{success: false}]. *)
Definition envRefreshDeclined : Env :=
  {| clock := at1000;
     axios := alwaysUnauthorized;
     refreshToken := fun _ _ =>
       RefreshFulfilled (Some {| success := false; reply_data := stale |}) |}.

(** 401, and the refresh endpoint is unreachable. *)
Definition envRefreshRejected : Env :=
  {| clock := at1000;
     axios := alwaysUnauthorized;
     refreshToken := fun _ _ => RefreshRejected networkError |}.

(** The transport cannot reach the server. *)
Definition envOffline : Env :=
  {| clock := at1000;
     axios := fun _ _ => AxiosRejected networkError;
     refreshToken := refreshYields fresh |}.

(** The server answers 201 with a message in the body. *)
Definition created : AxiosResponse :=
  {| status := 201;
     data := {| body_data := JNull; body_errorMessage := Some "created" |} |}.

Definition envCreated : Env :=
  {| clock := at1000;
     axios := fun _ _ => AxiosFulfilled created;
     refreshToken := refreshYields fresh |}.

(** 401 for ever, and a refresh endpoint whose tokens have an access part
    that is already over. *)
Definition envStaleForever : Env :=
  {| clock := at1000;
     axios := alwaysUnauthorized;
     refreshToken := refreshYields stale |}.

(** The refresh endpoint answers its first two calls with a token whose
    access part is already over, and the later ones with a good token. *)
Definition envStaleTwice : Env :=
  {| clock := at1000;
     axios := onlyAccepts "Bearer fresh";
     refreshToken := fun h _ =>
       if (length (refreshCalls h) <? 2)%nat
       then RefreshFulfilled (Some {| success := true; reply_data := stale |})
       else RefreshFulfilled (Some {| success := true; reply_data := fresh |}) |}.

End Scenarios.

(* ================================================================== *)
(** * Path variable substitution: properties *)
(* ================================================================== *)

Module PathVariablesFacts.
Import PathVariables.

(** Only the last entry of the map matters: every placeholder receives the
    value of the key visited last. *)
Lemma replacePathVariables_loop_last url requestUrl (entries : PathVariables)
    key value :
  replacePathVariables_loop url requestUrl (entries ++ [(key, value)])%list
  = replacePlaceholders url (String_ value).
Proof.
  revert requestUrl.
  induction entries as [| [k v] entries IH]; intros requestUrl; simpl.
  - reflexivity.
  - apply IH.
Qed.

Lemma replacePathVariables_last url (entries : PathVariables) key value :
  replacePathVariables url (entries ++ [(key, value)])%list
  = replacePlaceholders url (String_ value).
Proof. apply replacePathVariables_loop_last. Qed.

(** With an empty map the loop body never runs. *)
Lemma replacePathVariables_empty url : replacePathVariables url [] = url.
Proof. reflexivity. Qed.

Lemma replaceFrom_placeholderFree replacement before s :
  placeholderFree s = true ->
  replaceFrom replacement O before s = s.
Proof.
  revert before.
  induction s as [| c r IH]; intros before Hfree; simpl in *.
  - reflexivity.
  - apply andb_prop in Hfree as [Hc Hr].
    apply negb_true_iff in Hc. rewrite Hc.
    f_equal. apply IH, Hr.
Qed.

(** A template without placeholders comes back unchanged, whatever the
    map. *)
Lemma replacePathVariables_placeholderFree url entries :
  placeholderFree url = true ->
  replacePathVariables url entries = url.
Proof.
  intros Hfree. unfold replacePathVariables.
  induction entries as [| [k v] entries IH]; simpl.
  - reflexivity.
  - unfold replacePlaceholders.
    rewrite replaceFrom_placeholderFree by exact Hfree. exact IH.
Qed.

(** C1. The claim: each placeholder is replaced with its own mapped value
    (['/api/:id/:name'] with [{id: "1", name: "2"}] yields ['/api/1/2']) and
    a placeholder the map does not name stays literal.  The code at these
    inputs: every placeholder receives the value of the key visited last,
    so the documented example yields ['/api/2/2'], and with [{id: "1"}] the
    placeholder [:name], which the map omits, is overwritten as well. *)
Theorem replacePathVariables_last_value_everywhere :
  replacePathVariables "/api/:id/:name"
    [("id", PVString "1"); ("name", PVString "2")] = "/api/2/2"
  /\ replacePathVariables "/api/:id/:name" [("id", PVString "1")] = "/api/1/1".
Proof. split; reflexivity. Qed.

End PathVariablesFacts.

(* ================================================================== *)
(** * [request]: the blocks of the body *)
(* ================================================================== *)

Module RequestFacts.
Import Js Effects Orchestrator Observations.

#[local] Arguments gt : simpl never.
#[local] Arguments dispatched : simpl never.
#[local] Arguments or_else : simpl never.

Ltac unfold_effects :=
  unfold isTokenExpired, isRefreshTokenExpired, getToken, setToken,
    deleteToken, axios_, refreshToken_, Date_now, showError, when, bind, ret,
    record, extend, failureNotice, notice, failureOutcome, fixedOutcome,
    serverMessage.

Ltac flatten_history := rewrite <- ?app_assoc; simpl.

Lemma reportFailure_eq args error w :
  reportFailure args error w
  = (failureOutcome args error, extend w (failureNotice args error)).
Proof.
  unfold reportFailure. unfold_effects.
  destruct w as [st h], (silentError args), (throwError args); simpl;
    rewrite ?app_nil_r; reflexivity.
Qed.

Lemma request_body_eq env args w :
  request_body env args w =
    match tryBlock (transportAnswer env args w) with
    | inl envelope => (Return (Resolved envelope), afterDispatch env args w)
    | inr error => catchBlock env args error (afterDispatch env args w)
    end.
Proof.
  unfold request_body, transportAnswer, afterDispatch, atDispatch, stored.
  unfold_effects. simpl. flatten_history.
  destruct (tryBlock _); reflexivity.
Qed.

Lemma catchBlock_eq env args error w :
  catchBlock env args error w =
    if is401 error && negb (ignoreAuth args) then
      match refreshProtocol env args w with
      | (Some step, w') => (step, w')
      | (None, w') =>
        (Return (failureOutcome args error), extend w' (failureNotice args error))
      end
    else (Return (failureOutcome args error), extend w (failureNotice args error)).
Proof.
  unfold catchBlock, bind, ret.
  destruct (is401 error && negb (ignoreAuth args)).
  - destruct (refreshProtocol env args w) as [[step |] w']; [reflexivity |].
    rewrite reportFailure_eq. reflexivity.
  - rewrite reportFailure_eq. reflexivity.
Qed.

(** The 401 block as a decision tree over what the clock and the refresh
    endpoint answer. *)
Lemma refreshProtocol_eq env args w :
  refreshProtocol env args w =
    if tokenExpired env w then
      if refreshTokenExpired env w then
        (Some (Return (fixedOutcome args (Error_ "刷新令牌已过期") "刷新令牌已过期")),
         {| storage := None;
            history := history w ++ beforeRefresh env w ++
                       RemoveItem :: notice args "刷新令牌已过期，请重新登录" |})
      else
        match refreshAnswer env w with
        | RefreshFulfilled (Some newToken) =>
          if success newToken then
            (Some Retry,
             {| storage := Some (reply_data newToken);
                history := history w ++ beforeRefresh env w ++
                           [refreshCall env w; SetItem (reply_data newToken)] |})
          else (None, extend w (beforeRefresh env w ++ [refreshCall env w]))
        | RefreshFulfilled None =>
          (None, extend w (beforeRefresh env w ++ [refreshCall env w]))
        | RefreshRejected refreshError =>
          (Some (Return (fixedOutcome args refreshError "刷新令牌失败")),
           {| storage := None;
              history := history w ++ beforeRefresh env w ++
                         refreshCall env w :: RemoveItem
                         :: notice args "刷新令牌失败，请重新登录" |})
        end
    else (None, extend w [GetItem (storage w); DateNow (firstReading env w)]).
Proof.
  unfold refreshProtocol, refreshCall, refreshAnswer, beforeRefresh,
    refreshTokenExpired, secondReading, tokenExpired, firstReading, stored.
  unfold_effects.
  destruct w as [st h]; simpl.
  assert (Htruthy : truthy match st with Some t => TokenObject t | None => EmptyObject end = true)
    by (destruct st; reflexivity).
  rewrite Htruthy. simpl.
  match goal with |- context [if ?b then _ else _] => destruct b end; simpl;
    flatten_history; [| reflexivity].
  match goal with |- context [if ?b then _ else _] => destruct b end; simpl;
    flatten_history.
  - destruct (silentError args), (throwError args); simpl; flatten_history;
      reflexivity.
  - match goal with |- context [refreshToken env ?h ?r] =>
      destruct (refreshToken env h r) as [[newToken |] | refreshError] end;
      simpl; flatten_history.
    + destruct (success newToken); simpl; flatten_history; reflexivity.
    + reflexivity.
    + destruct (silentError args), (throwError args); simpl; flatten_history;
        reflexivity.
Qed.

(** ** Clock and refresh conditions carried along a call *)

Lemma inThePast_extend env w t evs :
  inThePast env w t -> inThePast env (extend w evs) t.
Proof. intros H h. simpl. rewrite <- app_assoc. apply H. Qed.

Lemma notPassed_extend env w t evs :
  notPassed env w t -> notPassed env (extend w evs) t.
Proof. intros H h. simpl. rewrite <- app_assoc. apply H. Qed.

Lemma inThePast_history env w w' t evs :
  history w' = history w ++ evs -> inThePast env w t -> inThePast env w' t.
Proof. intros Hh H h. rewrite Hh, <- app_assoc. apply H. Qed.

Lemma notPassed_history env w w' t evs :
  history w' = history w ++ evs -> notPassed env w t -> notPassed env w' t.
Proof. intros Hh H h. rewrite Hh, <- app_assoc. apply H. Qed.

Lemma afterDispatch_extend env args w :
  afterDispatch env args w
  = extend w [GetItem (storage w);
              Axios (dispatched args (stored w)) (transportAnswer env args w)].
Proof. reflexivity. Qed.

Lemma gt_inThePast_first env w t :
  inThePast env w t -> gt (firstReading env w) (Some t) = true.
Proof. intros H. apply Z.ltb_lt, H. Qed.

Lemma gt_inThePast_second env w t :
  inThePast env w t -> gt (secondReading env w) (Some t) = true.
Proof. intros H. apply Z.ltb_lt, H. Qed.

Lemma gt_notPassed_first env w t :
  notPassed env w t -> gt (firstReading env w) (Some t) = false.
Proof. intros H. apply Z.ltb_ge, H. Qed.

Lemma gt_notPassed_second env w t :
  notPassed env w t -> gt (secondReading env w) (Some t) = false.
Proof. intros H. apply Z.ltb_ge, H. Qed.

Lemma stored_Some w tok : storage w = Some tok -> stored w = TokenObject tok.
Proof. unfold stored. intros ->. reflexivity. Qed.

(** One run of the body that goes through the 401 block. *)
Lemma request_body_401 env args w error :
  ignoreAuth args = false ->
  receives401 env args w error ->
  request_body env args w =
    match refreshProtocol env args (afterDispatch env args w) with
    | (Some step, w') => (step, w')
    | (None, w') =>
      (Return (failureOutcome args error), extend w' (failureNotice args error))
    end.
Proof.
  intros Hauth [Hanswer H401].
  rewrite request_body_eq, Hanswer. simpl.
  rewrite catchBlock_eq, H401, Hauth. reflexivity.
Qed.

(** ** Traces *)

Lemma since_app w w' evs :
  history w' = history w ++ evs -> since w w' = evs.
Proof. intros H. unfold since. rewrite H. apply drop_app_length. Qed.

(** Every leaf of the body, at once. *)
Ltac body_leaves env args w :=
  rewrite (request_body_eq env args w);
  destruct (tryBlock (transportAnswer env args w)) as [envelope | error] eqn:Htry;
  [| rewrite catchBlock_eq;
     destruct (is401 error && negb (ignoreAuth args)) eqn:Henter;
     [ rewrite refreshProtocol_eq;
       destruct (tokenExpired env (afterDispatch env args w)) eqn:Hexpired;
       [ destruct (refreshTokenExpired env (afterDispatch env args w)) eqn:Hrexpired;
         [| destruct (refreshAnswer env (afterDispatch env args w))
              as [[newToken |] | refreshError] eqn:Hrefreshed;
            [ destruct (success newToken) eqn:Hsuccess | | ] ]
       | ]
     | ] ].

Ltac trace_leaf args :=
  unfold extend, failureNotice, notice, refreshCall, beforeRefresh;
  destruct (silentError args); simpl; rewrite <- ?app_assoc; simpl.

(** One run of the body dispatches once and calls the refresh endpoint at
    most once. *)
Lemma request_body_trace env args w :
  exists evs,
    history (request_body env args w).2 = history w ++ evs
    /\ dispatches evs = [dispatched args (stored w)]
    /\ (length (refreshCalls evs) <= 1)%nat.
Proof.
  body_leaves env args w; trace_leaf args;
    (eexists; split; [reflexivity | split; [reflexivity | simpl; lia]]).
Qed.


(** A run of the body in which [isTokenExpired] would answer [false] ends
    the call, without a call of the refresh endpoint. *)
Lemma request_body_not_expired env args w :
  tokenExpired env (afterDispatch env args w) = false ->
  exists o evs,
    request_body env args w = (Return o, extend w evs)
    /\ dispatches evs = [dispatched args (stored w)]
    /\ refreshCalls evs = [].
Proof.
  intros Hfresh. body_leaves env args w; try discriminate; trace_leaf args;
    (eexists _, _; split; [unfold afterDispatch; simpl; rewrite <- ?app_assoc; reflexivity |]);
    split; reflexivity.
Qed.

Lemma request_fuel_monotone env args fuel :
  forall w r, request env fuel args w = Some r ->
  forall extra, request env (fuel + extra) args w = Some r.
Proof.
  induction fuel as [| fuel IH]; intros w r Hrun extra; [discriminate |].
  simpl in *. destruct (request_body env args w) as [[o |] w'].
  - exact Hrun.
  - apply IH, Hrun.
Qed.

Lemma dispatches_app h1 h2 :
  dispatches (h1 ++ h2) = dispatches h1 ++ dispatches h2.
Proof. apply omap_app. Qed.

Lemma refreshCalls_app h1 h2 :
  refreshCalls (h1 ++ h2) = refreshCalls h1 ++ refreshCalls h2.
Proof. apply omap_app. Qed.

Lemma request_S env fuel args w :
  request env (S fuel) args w =
    match request_body env args w with
    | (Return o, w') => Some (o, w')
    | (Retry, w') => request env fuel args w'
    end.
Proof. reflexivity. Qed.

Lemma authorization_attached args tok :
  ignoreAuth args = false ->
  authorization (sent_config (dispatched args (TokenObject tok)))
  = Some ("Bearer " +:+ access tok).
Proof.
  intros Hauth. unfold dispatched, authorization, withAuthorization.
  rewrite Hauth. simpl. apply lookup_insert_eq.
Qed.

Ltac since_leaf args :=
  unfold extend, failureNotice, notice, beforeRefresh, afterDispatch;
  destruct (silentError args); simpl; rewrite <- ?app_assoc; simpl;
  erewrite since_app by (simpl; reflexivity); simpl.

Ltac event_listed :=
  repeat first [apply list_elem_of_here | apply list_elem_of_further].

Ltac no_such_event :=
  repeat match goal with
  | H : exists _, _ |- _ => destruct H
  | H : _ /\ _ |- _ => destruct H
  | H : _ \/ _ |- _ => destruct H
  | H : _ ∈ _ :: _ |- _ => apply elem_of_cons in H as [H | H]
  | H : _ ∈ [] |- _ => apply elem_of_nil in H; destruct H
  | H : RefreshToken _ _ = RefreshToken _ _ |- _ => inversion H; clear H; subst
  | H : _ = _ |- _ => discriminate H
  | H : _ = _ |- _ => congruence
  end.

Ltac frame_leaf :=
  unfold refreshRejectedIn, refreshedIn in *;
  first
    [ reflexivity
    | discriminate
    | solve [no_such_event]
    | left; reflexivity
    | right; eexists _, _; solve [event_listed]
    | eexists _, _; split; [solve [event_listed] | split; [eassumption | reflexivity]]
    | match goal with
      | H : [SetItem _] = [SetItem _] |- _ =>
        inversion H; subst; eexists _, _;
        split; [solve [event_listed] | split; [eassumption | reflexivity]]
      | H : forall t, ~ _ |- _ =>
        exfalso; eapply H; eexists _, _;
        split; [solve [event_listed] | split; [eassumption | reflexivity]]
      | H : ~ _ |- _ =>
        exfalso; apply H; eexists _, _; solve [event_listed]
      end ].

End RequestFacts.
(* ================================================================== *)
(** * [request]: the claims *)
(* ================================================================== *)

Module RequestClaims.
Import PathVariables Js Effects Orchestrator Observations RequestFacts.
Import Scenarios.

#[local] Arguments gt : simpl never.
#[local] Arguments dispatched : simpl never.
#[local] Arguments or_else : simpl never.

(** C9. When the transport resolves with status 200, the call resolves with
    [{data, success: true}] whose [data] is the [data] of the response body;
    the notifier is not called and the store is not written: the call's
    only interactions are the read of the store and the dispatch. *)
Theorem status_200_resolves_with_body_data env args w response :
  transportAnswer env args w = AxiosFulfilled response ->
  status response = 200 ->
  forall fuel,
    request env (S fuel) args w =
    Some (Resolved (Success (body_data (data response))),
          {| storage := storage w;
             history := history w ++
               [GetItem (storage w);
                Axios (dispatched args (stored w)) (AxiosFulfilled response)] |}).
Proof.
  intros Hanswer Hstatus fuel. simpl.
  rewrite request_body_eq, Hanswer. simpl. rewrite Hstatus. simpl.
  unfold afterDispatch. rewrite Hanswer. reflexivity.
Qed.

Lemma status_200_resolves_with_body_data_witness :
  request envOk 1 (descriptor false false false) (start (Some fresh)) =
  Some (Resolved (Success (JString "payload")),
        {| storage := Some fresh;
           history :=
             [GetItem (Some fresh);
              Axios (dispatched (descriptor false false false) (TokenObject fresh))
                (ok (JString "payload"))] |}).
Proof.
  apply (status_200_resolves_with_body_data envOk (descriptor false false false)
           (start (Some fresh))
           {| status := 200;
              data := {| body_data := JString "payload";
                         body_errorMessage := None |} |});
    reflexivity.
Defined.

(** C5. The claim: with [ignoreAuth] unset, the [Authorization] header is
    attached only if the store holds a token; with an empty store the
    dispatched call carries none.  The code at an empty store: [getToken]
    answers [{}], which [if (token && !ignoreAuth)] takes for a token, and the
    one dispatch of the call carries [Authorization: Bearer undefined]. *)
Theorem empty_store_dispatches_bearer_undefined :
  exists w',
    request envOk 1 (descriptor false false false) (start None)
    = Some (Resolved (Success (JString "payload")), w')
    /\ (fun sent => authorization (sent_config sent)) <$> dispatches (history w')
       = [Some "Bearer undefined"].
Proof. eexists. split; reflexivity. Qed.

(** C6. With [ignoreAuth] set, whatever the store holds: the configuration
    handed to the transport is the caller's, no [Authorization] header is
    added; and a failure, a 401 included, goes straight to the generic
    report.  After the dispatch nothing happens but at most one call of the
    notifier: no read of the clock, no call of the refresh endpoint, no
    write to the store, no retry. *)
Theorem ignoreAuth_skips_credential_and_refresh env args w :
  ignoreAuth args = true ->
  (forall token, sent_config (dispatched args token) = config args)
  /\ forall fuel,
      request env (S fuel) args w =
      Some (match tryBlock (transportAnswer env args w) with
            | inl envelope => Resolved envelope
            | inr error =>
              if throwError args then Rejected error
              else Resolved (Failure (code error) (message error))
            end,
            {| storage := storage w;
               history := history w ++
                 [GetItem (storage w);
                  Axios (dispatched args (stored w)) (transportAnswer env args w)]
                 ++ match tryBlock (transportAnswer env args w) with
                    | inl _ => []
                    | inr error =>
                      if silentError args then []
                      else [ShowError (serverMessage error)]
                    end |}).
Proof.
  intros Hauth. split.
  - intros token. unfold dispatched. rewrite Hauth, andb_false_r. reflexivity.
  - intros fuel. simpl. rewrite request_body_eq.
    destruct (tryBlock (transportAnswer env args w)) as [envelope | error].
    + unfold afterDispatch. simpl. rewrite ?app_nil_r. reflexivity.
    + rewrite catchBlock_eq, Hauth, andb_false_r.
      unfold extend, afterDispatch, failureOutcome, failureNotice, notice.
      simpl. rewrite <- app_assoc. reflexivity.
Qed.

Lemma ignoreAuth_skips_credential_and_refresh_witness :
  (forall token,
      sent_config (dispatched (descriptor true false false) token) = plainConfig)
  /\ forall fuel,
      request envUnauthorized (S fuel) (descriptor true false false)
        (start (Some lapsed)) =
      Some (Resolved (Failure (JString "ERR_BAD_REQUEST")
                        (JString "Request failed with status code 401")),
            {| storage := Some lapsed;
               history :=
                 [GetItem (Some lapsed);
                  Axios (dispatched (descriptor true false false) (TokenObject lapsed))
                    (AxiosRejected unauthorized);
                  ShowError "unauthorized"] |}).
Proof.
  apply (ignoreAuth_skips_credential_and_refresh envUnauthorized
           (descriptor true false false) (start (Some lapsed))).
  reflexivity.
Defined.

(** C7. When the call receives a 401 while the stored token is expired by
    neither predicate, the failure is reported the generic way: the notifier
    gets the server's message (or "请求失败") unless [silentError] is set, and
    the call rejects with the transport error or resolves with its code and
    message.  The refresh endpoint is not called and the store is not
    written: besides the dispatch, the call reads the store and the clock
    once each (not even that when [ignoreAuth] is set). *)
Theorem valid_token_401_reported_generically env args w tok error :
  storage w = Some tok ->
  receives401 env args w error ->
  notPassed env w (accessExpiredAt tok) ->
  notPassed env w (refreshExpiredAt tok) ->
  exists now, forall fuel,
    request env (S fuel) args w =
    Some (if throwError args then Rejected error
          else Resolved (Failure (code error) (message error)),
          {| storage := Some tok;
             history := history w ++
               [GetItem (Some tok);
                Axios (dispatched args (TokenObject tok)) (AxiosRejected error)]
               ++ (if ignoreAuth args then []
                   else [GetItem (Some tok); DateNow now])
               ++ (if silentError args then []
                   else [ShowError (serverMessage error)]) |}).
Proof.
  intros Hstored [Hanswer H401] Haccess Hrefresh.
  destruct w as [st h]; simpl in Hstored; subst st.
  set (w := {| storage := Some tok; history := h |}) in *.
  set (w1 := {| storage := Some tok;
                history := h ++
                  [GetItem (Some tok);
                   Axios (dispatched args (TokenObject tok))
                     (AxiosRejected error)] |}).
  assert (Hw1 : afterDispatch env args w = w1)
    by (unfold afterDispatch; rewrite Hanswer; reflexivity).
  exists (firstReading env w1). intros fuel. simpl.
  rewrite request_body_eq, Hanswer. simpl.
  rewrite catchBlock_eq, H401, Hw1. simpl.
  destruct (ignoreAuth args); simpl.
  - unfold extend, failureOutcome, failureNotice, notice.
    simpl. rewrite <- app_assoc. reflexivity.
  - rewrite refreshProtocol_eq.
    assert (Htok : tokenExpired env w1 = false).
    { unfold tokenExpired. simpl.
      rewrite !(gt_notPassed_first env w1);
        [reflexivity | |]; apply (notPassed_history env w w1 _ _ eq_refl);
        assumption. }
    rewrite Htok.
    unfold extend, failureOutcome, failureNotice, notice. simpl.
    rewrite <- !app_assoc. reflexivity.
Qed.

Lemma valid_token_401_reported_generically_witness :
  exists now, forall fuel,
    request envUnauthorized (S fuel) (descriptor false false false)
      (start (Some fresh)) =
    Some (Resolved (Failure (JString "ERR_BAD_REQUEST")
                      (JString "Request failed with status code 401")),
          {| storage := Some fresh;
             history :=
               [GetItem (Some fresh);
                Axios (dispatched (descriptor false false false) (TokenObject fresh))
                  (AxiosRejected unauthorized);
                GetItem (Some fresh); DateNow now;
                ShowError "unauthorized"] |}).
Proof.
  apply (valid_token_401_reported_generically envUnauthorized
           (descriptor false false false) (start (Some fresh)) fresh unauthorized).
  - reflexivity.
  - split; reflexivity.
  - intros h. simpl. unfold at1000. lia.
  - intros h. simpl. unfold at1000. lia.
Defined.

(** C4. When the call receives a 401 while both expiry times of the stored
    token are in the past (and [ignoreAuth] is not set, as the refresh
    protocol requires): the stored token is deleted, the refresh endpoint is
    not called, the notifier is called exactly once with
    "刷新令牌已过期，请重新登录" unless [silentError] is set (and then not at all),
    and the call rejects when [throwError] is set and otherwise resolves with
    the failure envelope, [errorCode] 401 and [errorMessage]
    "刷新令牌已过期".  The trace lists all interactions of the call. *)
Theorem refresh_token_expired_clears_store env args w tok error :
  ignoreAuth args = false ->
  storage w = Some tok ->
  receives401 env args w error ->
  inThePast env w (accessExpiredAt tok) ->
  inThePast env w (refreshExpiredAt tok) ->
  exists now1 now2, forall fuel,
    request env (S fuel) args w =
    Some (if throwError args
          then Rejected (Error_ "刷新令牌已过期")
          else Resolved (Failure (JNumber 401) (JString "刷新令牌已过期")),
          {| storage := None;
             history := history w ++
               [GetItem (Some tok);
                Axios (dispatched args (TokenObject tok)) (AxiosRejected error);
                GetItem (Some tok); DateNow now1; DateNow now2; RemoveItem]
               ++ (if silentError args then []
                   else [ShowError "刷新令牌已过期，请重新登录"]) |}).
Proof.
  intros Hauth Hstored H401 Haccess Hrefresh.
  pose proof H401 as [Hanswer _].
  set (w1 := afterDispatch env args w).
  assert (Hr1 : inThePast env w1 (refreshExpiredAt tok))
    by (apply (inThePast_extend env w), Hrefresh).
  exists (firstReading env w1), (secondReading env w1). intros fuel.
  simpl. rewrite (request_body_401 env args w error Hauth H401).
  rewrite refreshProtocol_eq. fold w1.
  unfold tokenExpired, refreshTokenExpired.
  assert (Hs1 : stored w1 = TokenObject tok) by (apply stored_Some, Hstored).
  rewrite Hs1. simpl token_refreshExpiredAt.
  rewrite (gt_inThePast_first env w1 _ Hr1), (gt_inThePast_second env w1 _ Hr1).
  rewrite orb_true_r.
  unfold beforeRefresh, fixedOutcome, notice. subst w1.
  unfold afterDispatch at 1 2. simpl storage. simpl history.
  rewrite (stored_Some w tok Hstored), Hstored, Hanswer.
  rewrite <- app_assoc. reflexivity.
Qed.


Lemma refresh_token_expired_clears_store_witness :
  exists now1 now2, forall fuel,
    request envUnauthorized (S fuel) (descriptor false false false)
      (start (Some lapsed)) =
    Some (Resolved (Failure (JNumber 401) (JString "刷新令牌已过期")),
          {| storage := None;
             history :=
               [GetItem (Some lapsed);
                Axios (dispatched (descriptor false false false) (TokenObject lapsed))
                  (AxiosRejected unauthorized);
                GetItem (Some lapsed); DateNow now1; DateNow now2; RemoveItem;
                ShowError "刷新令牌已过期，请重新登录"] |}).
Proof.
  apply (refresh_token_expired_clears_store envUnauthorized
           (descriptor false false false) (start (Some lapsed)) lapsed
           unauthorized).
  - reflexivity.
  - reflexivity.
  - split; reflexivity.
  - intros h. simpl. unfold at1000. lia.
  - intros h. simpl. unfold at1000. lia.
Defined.

(** When the promise of the refresh endpoint rejects, the stored token is
    deleted, the notifier is called once with "刷新令牌失败，请重新登录" unless
    [silentError] is set, and the call rejects with the reason of that
    rejection when [throwError] is set and otherwise resolves with the failure
    envelope, [errorCode] 401 and [errorMessage] "刷新令牌失败". *)
Lemma refresh_rejected_clears_store env args w tok error refreshError :
  ignoreAuth args = false ->
  storage w = Some tok ->
  receives401 env args w error ->
  inThePast env w (accessExpiredAt tok) ->
  notPassed env w (refreshExpiredAt tok) ->
  refreshRejects env w refreshError ->
  exists now1 now2, forall fuel,
    request env (S fuel) args w =
    Some (if throwError args
          then Rejected refreshError
          else Resolved (Failure (JNumber 401) (JString "刷新令牌失败")),
          {| storage := None;
             history := history w ++
               [GetItem (Some tok);
                Axios (dispatched args (TokenObject tok)) (AxiosRejected error);
                GetItem (Some tok); DateNow now1; DateNow now2;
                RefreshToken (Some (refresh tok)) (RefreshRejected refreshError);
                RemoveItem]
               ++ (if silentError args then []
                   else [ShowError "刷新令牌失败，请重新登录"]) |}).
Proof.
  intros Hauth Hstored H401 Haccess Hrefresh Hrejects.
  pose proof H401 as [Hanswer _].
  destruct w as [st h]; simpl in Hstored; subst st.
  set (w := {| storage := Some tok; history := h |}) in *.
  set (w1 := {| storage := Some tok;
                history := h ++
                  [GetItem (Some tok);
                   Axios (dispatched args (TokenObject tok))
                     (AxiosRejected error)] |}).
  assert (Hw1 : afterDispatch env args w = w1)
    by (unfold afterDispatch; rewrite Hanswer; reflexivity).
  assert (Hlater : history w1 = history w ++
            [GetItem (Some tok);
             Axios (dispatched args (TokenObject tok)) (AxiosRejected error)])
    by reflexivity.
  exists (firstReading env w1), (secondReading env w1). intros fuel.
  rewrite request_S, (request_body_401 env args w error Hauth H401), Hw1.
  rewrite refreshProtocol_eq.
  unfold tokenExpired, refreshTokenExpired, refreshCall, refreshAnswer.
  simpl stored. simpl token_accessExpiredAt. simpl token_refreshExpiredAt.
  simpl token_refresh.
  rewrite (gt_inThePast_first env w1 _ (inThePast_history env w w1 _ _ Hlater Haccess)).
  rewrite (gt_notPassed_second env w1 _ (notPassed_history env w w1 _ _ Hlater Hrefresh)).
  simpl. rewrite <- app_assoc. rewrite (Hrejects _ _).
  unfold fixedOutcome, notice. simpl. rewrite <- app_assoc. reflexivity.
Qed.

Example refresh_rejected_rethrows :
  exists w',
    request envRefreshRejected 1 (descriptor false true true) (start (Some stale))
    = Some (Rejected networkError, w')
    /\ storage w' = None
    /\ storeWrites (history w') = [RemoveItem]
    /\ notifications (history w') = [].
Proof. eexists. repeat split; reflexivity. Qed.

(** C2. The claim: when the refresh call fails, by resolving with [success]
    false or by rejecting, the stored token is deleted and the call reports
    the "refresh failed" failure, code 401.  The code does so when the promise
    rejects ([refresh_rejected_clears_store]); when it resolves with
    [{success: false}] the [if] has no other branch and control falls out of
    the block: at this input the expired token stays in the store, and the
    call reports the 401 of the transport the generic way, with the server's
    message and the transport's code. *)
Theorem declined_refresh_keeps_token :
  exists w',
    request envRefreshDeclined 1 (descriptor false false false)
      (start (Some stale))
    = Some (Resolved (Failure (JString "ERR_BAD_REQUEST")
                        (JString "Request failed with status code 401")), w')
    /\ storage w' = Some stale
    /\ refreshCalls (history w') = [Some "r-stale"]
    /\ storeWrites (history w') = []
    /\ notifications (history w') = ["unauthorized"].
Proof. eexists. repeat split; reflexivity. Qed.

(** C3, as stated, fails: the refresh endpoint resolves with
    [{success: true, data: stale}], but the access part of [stale] is already
    over.  The retried dispatch carries the credential of [stale] and is
    answered 401, and it is not the only one: the call refreshes and
    dispatches again, twice, so that three retried dispatches occur, two of
    them with the credential of [stale], and the result of the call is the
    answer to the last one. *)
Lemma refreshed_token_already_expired_retries_again :
  ignoreAuth (descriptor false false false) = false
  /\ receives401 envStaleTwice (descriptor false false false)
       (start (Some halfLapsed)) unauthorized
  /\ inThePast envStaleTwice (start (Some halfLapsed)) (accessExpiredAt halfLapsed)
  /\ notPassed envStaleTwice (start (Some halfLapsed)) (refreshExpiredAt halfLapsed)
  /\ refreshAnswer envStaleTwice
       (afterDispatch envStaleTwice (descriptor false false false)
          (start (Some halfLapsed)))
     = RefreshFulfilled (Some {| success := true; reply_data := stale |})
  /\ request envStaleTwice 2 (descriptor false false false)
       (start (Some halfLapsed)) = None
  /\ exists wf,
      request envStaleTwice 4 (descriptor false false false)
        (start (Some halfLapsed))
      = Some (Resolved (Success (JString "payload")), wf)
      /\ omap (fun e => match e with
                        | Axios sent settled =>
                          Some (authorization (sent_config sent), settled)
                        | _ => None
                        end) (history wf)
         = [(Some "Bearer old", AxiosRejected unauthorized);
            (Some "Bearer stale", AxiosRejected unauthorized);
            (Some "Bearer stale", AxiosRejected unauthorized);
            (Some "Bearer fresh", ok (JString "payload"))].
Proof.
  split; [reflexivity |]. split; [split; reflexivity |].
  split; [intros h; simpl; unfold at1000; lia |].
  split; [intros h; simpl; unfold at1000; lia |].
  split; [reflexivity |]. split; [vm_compute; reflexivity |].
  eexists. split; [vm_compute; reflexivity |]. vm_compute. reflexivity.
Qed.

(** C3, amended.  When the call receives a 401 with an expired access part,
    a refresh part that is not expired and a refresh endpoint that resolves
    with [{success: true, data: newToken}], and [newToken] is not expired
    either: the new record is stored and [request] is run again with the same
    descriptor; that second run ends the call, so that there is exactly one
    retried dispatch, which carries [Bearer] followed by the access value of
    [newToken], and the result of the call is the result of the retried
    run. *)
Theorem refresh_success_retries_once env args w tok error newToken :
  ignoreAuth args = false ->
  storage w = Some tok ->
  receives401 env args w error ->
  inThePast env w (accessExpiredAt tok) ->
  notPassed env w (refreshExpiredAt tok) ->
  refreshResolves env w (Some {| success := true; reply_data := newToken |}) ->
  notPassed env w (accessExpiredAt newToken) ->
  notPassed env w (refreshExpiredAt newToken) ->
  exists now1 now2 o wf,
    let w' :=
      {| storage := Some newToken;
         history := history w ++
           [GetItem (Some tok);
            Axios (dispatched args (TokenObject tok)) (AxiosRejected error);
            GetItem (Some tok); DateNow now1; DateNow now2;
            RefreshToken (Some (refresh tok))
              (RefreshFulfilled (Some {| success := true; reply_data := newToken |}));
            SetItem newToken] |} in
    request_body env args w = (Retry, w')
    /\ request env 1 args w' = Some (o, wf)
    /\ (forall fuel, request env (S (S fuel)) args w = Some (o, wf))
    /\ dispatches (since w wf)
       = [dispatched args (TokenObject tok); dispatched args (TokenObject newToken)]
    /\ authorization (sent_config (dispatched args (TokenObject newToken)))
       = Some ("Bearer " +:+ access newToken).
Proof.
  intros Hauth Hstored H401 Haccess Hrefresh Hresolves Hnew1 Hnew2.
  pose proof H401 as [Hanswer _].
  destruct w as [st h]; simpl in Hstored; subst st.
  set (w := {| storage := Some tok; history := h |}) in *.
  set (w1 := {| storage := Some tok;
                history := h ++
                  [GetItem (Some tok);
                   Axios (dispatched args (TokenObject tok))
                     (AxiosRejected error)] |}).
  assert (Hw1 : afterDispatch env args w = w1)
    by (unfold afterDispatch; rewrite Hanswer; reflexivity).
  assert (Hlater : history w1 = history w ++
            [GetItem (Some tok);
             Axios (dispatched args (TokenObject tok)) (AxiosRejected error)])
    by reflexivity.
  set (w' := {| storage := Some newToken;
         history := history w ++
           [GetItem (Some tok);
            Axios (dispatched args (TokenObject tok)) (AxiosRejected error);
            GetItem (Some tok); DateNow (firstReading env w1);
            DateNow (secondReading env w1);
            RefreshToken (Some (refresh tok))
              (RefreshFulfilled (Some {| success := true; reply_data := newToken |}));
            SetItem newToken] |}).
  assert (Hrun : request_body env args w = (Retry, w')).
  { rewrite (request_body_401 env args w error Hauth H401), Hw1.
    rewrite refreshProtocol_eq.
    unfold tokenExpired, refreshTokenExpired, refreshCall, refreshAnswer.
    simpl stored. simpl token_accessExpiredAt. simpl token_refreshExpiredAt.
    simpl token_refresh.
    rewrite (gt_inThePast_first env w1 _ (inThePast_history env w w1 _ _ Hlater Haccess)).
    rewrite (gt_notPassed_second env w1 _ (notPassed_history env w w1 _ _ Hlater Hrefresh)).
    simpl. rewrite <- app_assoc. rewrite (Hresolves _ _). simpl.
    rewrite <- app_assoc. reflexivity. }
  assert (Hfresh : tokenExpired env (afterDispatch env args w') = false).
  { unfold tokenExpired. simpl stored. simpl token_accessExpiredAt.
    simpl token_refreshExpiredAt.
    rewrite !(gt_notPassed_first env (afterDispatch env args w'));
      [reflexivity | |];
      (eapply (notPassed_history env w);
       [unfold afterDispatch; simpl; rewrite <- app_assoc; reflexivity
       | assumption]). }
  destruct (request_body_not_expired env args w' Hfresh)
    as (o & evs2 & Hrun2 & Hd2 & _).
  exists (firstReading env w1), (secondReading env w1), o, (extend w' evs2).
  cbv zeta. fold w'. split; [exact Hrun |].
  split; [rewrite request_S, Hrun2; reflexivity |].
  split; [intros fuel; rewrite request_S, Hrun, request_S, Hrun2; reflexivity |].
  split; [| apply authorization_attached, Hauth].
  erewrite since_app by (simpl; rewrite <- app_assoc; reflexivity).
  rewrite dispatches_app, Hd2. reflexivity.
Qed.


Lemma refresh_success_retries_once_witness :
  exists now1 now2 o wf,
    let w' :=
      {| storage := Some fresh;
         history :=
           [GetItem (Some stale);
            Axios (dispatched (descriptor false false false) (TokenObject stale))
              (AxiosRejected unauthorized);
            GetItem (Some stale); DateNow now1; DateNow now2;
            RefreshToken (Some "r-stale")
              (RefreshFulfilled (Some {| success := true; reply_data := fresh |}));
            SetItem fresh] |} in
    request_body envRefreshed (descriptor false false false) (start (Some stale))
    = (Retry, w')
    /\ request envRefreshed 1 (descriptor false false false) w' = Some (o, wf)
    /\ (forall fuel,
          request envRefreshed (S (S fuel)) (descriptor false false false)
            (start (Some stale)) = Some (o, wf))
    /\ dispatches (since (start (Some stale)) wf)
       = [dispatched (descriptor false false false) (TokenObject stale);
          dispatched (descriptor false false false) (TokenObject fresh)]
    /\ authorization
         (sent_config (dispatched (descriptor false false false) (TokenObject fresh)))
       = Some "Bearer fresh".
Proof.
  apply (refresh_success_retries_once envRefreshed (descriptor false false false)
           (start (Some stale)) stale unauthorized fresh).
  - reflexivity.
  - reflexivity.
  - split; reflexivity.
  - intros h. simpl. unfold at1000. lia.
  - intros h. simpl. unfold at1000. lia.
  - intros h r. reflexivity.
  - intros h. simpl. unfold at1000. lia.
  - intros h. simpl. unfold at1000. lia.
Defined.

Lemma staleForever_retries w :
  storage w = Some stale ->
  exists w',
    request_body envStaleForever (descriptor false false false) w
    = (Retry, w')
    /\ storage w' = Some stale.
Proof.
  intros Hstored. destruct w as [st h]; simpl in Hstored; subst st.
  eexists.
  rewrite (request_body_401 envStaleForever
             (descriptor false false false) _ unauthorized
             eq_refl)
    by (split; reflexivity).
  rewrite refreshProtocol_eq. split; reflexivity.
Qed.

(** C8. If the token stored by a successful refresh is not expired for
    [isTokenExpired] when the retried run handles a failure, the call ends
    after at most two runs of the body, that is after at most one retry, with
    one outcome (an envelope or a raised error), at most two dispatches and at
    most one call of the refresh endpoint.  Without that condition nothing
    bounds the retries: against a server that always answers 401 and a refresh
    endpoint whose tokens are already over, no number of runs ends the
    call. *)
Theorem one_retry_when_refreshed_token_holds env args w :
  refreshedTokenHolds env args w ->
  (exists o w',
      (forall fuel, request env (S (S fuel)) args w = Some (o, w'))
      /\ (length (dispatches (since w w')) <= 2)%nat
      /\ (length (refreshCalls (since w w')) <= 1)%nat)
  /\ (exists env' args' w0, forall fuel, request env' fuel args' w0 = None).
Proof.
  intros Hholds. split.
  - destruct (request_body_trace env args w) as (evs1 & Hh1 & Hd1 & Hr1).
    destruct (request_body env args w) as [[o |] w1] eqn:Hrun; simpl in Hh1.
    + exists o, w1. split.
      * intros fuel. simpl. rewrite Hrun. reflexivity.
      * rewrite (since_app w w1 evs1 Hh1), Hd1. simpl. lia.
    + destruct (request_body_not_expired env args w1 (Hholds w1 Hrun))
        as (o & evs2 & Hrun2 & Hd2 & Hr2).
      exists o, (extend w1 evs2). split.
      * intros fuel. simpl. rewrite Hrun, Hrun2. reflexivity.
      * assert (Hh : history (extend w1 evs2) = history w ++ (evs1 ++ evs2))
          by (simpl; rewrite Hh1, <- app_assoc; reflexivity).
        rewrite (since_app _ _ _ Hh).
        unfold dispatches, refreshCalls in *.
        rewrite !omap_app, !length_app, Hd1, Hd2, Hr2. simpl. lia.
  - exists envStaleForever, (descriptor false false false),
      (start (Some stale)).
    intros fuel. generalize (start (Some stale)), (eq_refl : storage (start (Some stale)) = Some stale).
    induction fuel as [| fuel IH]; intros w0 Hstored; [reflexivity |].
    simpl. destruct (staleForever_retries w0 Hstored) as (w' & -> & Hstored').
    apply IH, Hstored'.
Qed.



Lemma one_retry_when_refreshed_token_holds_witness :
  (exists o w',
      (forall fuel,
          request envUnauthorized (S (S fuel)) (descriptor false false false)
            (start (Some stale)) = Some (o, w'))
      /\ (length (dispatches (since (start (Some stale)) w')) <= 2)%nat
      /\ (length (refreshCalls (since (start (Some stale)) w')) <= 1)%nat)
  /\ (exists env' args' w0, forall fuel, request env' fuel args' w0 = None).
Proof.
  apply (one_retry_when_refreshed_token_holds envUnauthorized
           (descriptor false false false) (start (Some stale))).
  intros w' Hrun. vm_compute in Hrun. injection Hrun as <-. reflexivity.
Defined.

(** C10. In one run of the body the store is written at most once, and
    only by the refresh protocol: [removeItem] happens exactly when a 401
    occurs with both expiry predicates true or the promise of the refresh
    endpoint rejects, [setItem] with [t] exactly when that promise resolves
    with [{success: true, data: t}]; in the first case the store ends empty,
    in the second it holds [t].  On every other path (a success, a failure
    that is not a 401, [ignoreAuth] set, a 401 with no token or with a token
    that is not expired, a refresh that resolves without success) nothing is
    written and the stored record is the one the run started with. *)
Theorem store_written_only_on_refresh_branches env args w :
  let w' := (request_body env args w).2 in
  let evs := since w w' in
  (storeWrites evs = [RemoveItem]
     <-> bothPredicatesTrue env args w = true \/ refreshRejectedIn evs)
  /\ (forall t, storeWrites evs = [SetItem t] <-> refreshedIn evs t)
  /\ (storeWrites evs = [RemoveItem] -> storage w' = None)
  /\ (forall t, storeWrites evs = [SetItem t] -> storage w' = Some t)
  /\ (entersRefreshProtocol env args w = false
      \/ tokenExpired env (afterDispatch env args w) = false ->
      storeWrites evs = [] /\ storage w' = storage w)
  /\ (bothPredicatesTrue env args w = false -> ~ refreshRejectedIn evs ->
      (forall t, ~ refreshedIn evs t) ->
      storeWrites evs = [] /\ storage w' = storage w).
Proof.
  cbv zeta. unfold bothPredicatesTrue, entersRefreshProtocol.
  body_leaves env args w; unfold refreshCall; rewrite ?Hrefreshed;
    since_leaf args; repeat split; intros; frame_leaf.
Qed.

End RequestClaims.

(* ================================================================== *)
(** * Path variable substitution: further properties *)
(* ================================================================== *)

Module PathVariablesCoverage.
Import PathVariables PathVariablesFacts.

#[local] Arguments String.append !s1 s2 : simpl nomatch.

(** X1. A map with entries is read for its last value only: two maps whose
    last visited keys hold the same value yield the same address, whatever
    the keys are called and whatever comes before them. *)
Theorem replacePathVariables_reads_last_value_only url
    (entries1 entries2 : PathVariables) key1 key2 value :
  replacePathVariables url (entries1 ++ [(key1, value)])%list
  = replacePathVariables url (entries2 ++ [(key2, value)])%list.
Proof. rewrite !replacePathVariables_last. reflexivity. Qed.

(** X2. A template in which no colon is followed by a word character comes
    back as it is, whatever the map holds. *)
Theorem replacePathVariables_keeps_plain_url url entries :
  placeholderFree url = true ->
  replacePathVariables url entries = url.
Proof. apply replacePathVariables_placeholderFree. Qed.

Lemma replacePathVariables_keeps_plain_url_witness :
  replacePathVariables "/api/users:/list"
    [("id", PVString "1"); ("name", PVNumber 2)] = "/api/users:/list".
Proof.
  apply (replacePathVariables_keeps_plain_url "/api/users:/list"
           [("id", PVString "1"); ("name", PVNumber 2)]).
  reflexivity.
Defined.

(** ** One placeholder, a value without dollar sign *)

Lemma append_assoc (a b c : string) :
  String.append (String.append a b) c = String.append a (String.append b c).
Proof. induction a as [| x a IH]; simpl; [reflexivity | rewrite IH; reflexivity]. Qed.

Lemma getSubstitution_dollarFree matched capture before after template :
  dollarFree template = true ->
  getSubstitution matched capture before after template = template.
Proof.
  induction template as [| c rest IH]; intros Hfree; simpl in *.
  - reflexivity.
  - apply andb_prop in Hfree as [Hc Hrest]. rewrite Hc.
    rewrite IH by exact Hrest. reflexivity.
Qed.

Lemma takeWord_name name post :
  wordChars name = true -> startsWithWordChar post = false ->
  takeWord (String.append name post) = name.
Proof.
  intros Hname Hpost. induction name as [| c name IH]; simpl in *.
  - destruct post as [| d post]; simpl in *; [reflexivity |].
    rewrite Hpost. reflexivity.
  - apply andb_prop in Hname as [Hc Hname]. rewrite Hc, IH by exact Hname.
    reflexivity.
Qed.

Lemma dropChars_name name post :
  dropChars (String.length name) (String.append name post) = post.
Proof. induction name as [| c name IH]; simpl; [destruct post |]; auto. Qed.

(** Passing over the characters of a match. *)
Lemma replaceFrom_skip replacement name before post :
  replaceFrom replacement (String.length name) before (String.append name post)
  = replaceFrom replacement O (String.append before name) post.
Proof.
  revert before. induction name as [| c name IH]; intros before; simpl.
  - replace (String.append before EmptyString) with before; [reflexivity |].
    induction before as [| x before IHb]; simpl; congruence.
  - rewrite IH, append_assoc. reflexivity.
Qed.

(** Without dollar sign in the replacement, the part already scanned plays
    no role. *)
Lemma replaceFrom_before replacement skip before before' s :
  dollarFree replacement = true ->
  replaceFrom replacement skip before s = replaceFrom replacement skip before' s.
Proof.
  intros Hfree. revert skip before before'.
  induction s as [| c r IH]; intros skip before before'; simpl.
  - reflexivity.
  - destruct skip as [| k].
    + destruct (isColon c && negb (takeWord r =? ""))%string.
      * rewrite !getSubstitution_dollarFree by exact Hfree.
        f_equal. apply IH.
      * f_equal. apply IH.
    + apply IH.
Qed.

Lemma takeWord_empty_append p rest :
  startsWithWordChar rest = false ->
  (takeWord (String.append p rest) =? "")%string = (takeWord p =? "")%string.
Proof.
  intros Hrest. destruct p as [| d p]; simpl.
  - destruct rest as [| e rest]; simpl in *; [reflexivity |].
    rewrite Hrest. reflexivity.
  - destruct (isWordChar d); reflexivity.
Qed.

(** A prefix without placeholders is copied. *)
Lemma replaceFrom_plain_prefix replacement before pre rest :
  placeholderFree pre = true -> startsWithWordChar rest = false ->
  replaceFrom replacement O before (String.append pre rest)
  = String.append pre
      (replaceFrom replacement O (String.append before pre) rest).
Proof.
  intros Hpre Hrest. revert before.
  induction pre as [| c pre IH]; intros before; simpl in *.
  - replace (String.append before EmptyString) with before; [reflexivity |].
    induction before as [| x before IHb]; simpl; congruence.
  - apply andb_prop in Hpre as [Hc Hpre].
    rewrite takeWord_empty_append by exact Hrest.
    apply negb_true_iff in Hc. rewrite Hc.
    rewrite IH by exact Hpre. rewrite append_assoc. reflexivity.
Qed.

Lemma replacePlaceholders_first_placeholder pre name post value :
  placeholderFree pre = true ->
  isName name = true ->
  startsWithWordChar post = false ->
  dollarFree value = true ->
  replacePlaceholders
    (String.append pre (String ":" (String.append name post))) value
  = String.append pre (String.append value (replacePlaceholders post value)).
Proof.
  intros Hpre Hname Hpost Hvalue.
  apply andb_prop in Hname as [Hnonempty Hword].
  unfold replacePlaceholders.
  rewrite replaceFrom_plain_prefix by (exact Hpre || reflexivity).
  f_equal. simpl.
  rewrite (takeWord_name name post Hword Hpost), Hnonempty. simpl.
  rewrite getSubstitution_dollarFree by exact Hvalue.
  f_equal. rewrite replaceFrom_skip.
  apply replaceFrom_before, Hvalue.
Qed.

(** X3. A placeholder is replaced whatever its name and whatever the keys of
    the map: in a template that starts with a part free of placeholders
    followed by [:name], the part is copied, [:name] becomes the value of the
    key visited last (taken as it is when it holds no dollar sign), and the
    rest of the template is treated the same way. *)
Theorem replacePathVariables_first_placeholder pre name post
    (entries : PathVariables) key value :
  placeholderFree pre = true ->
  isName name = true ->
  startsWithWordChar post = false ->
  dollarFree (String_ value) = true ->
  replacePathVariables
    (String.append pre (String ":" (String.append name post)))
    (entries ++ [(key, value)])%list
  = String.append pre
      (String.append (String_ value)
         (replacePathVariables post (entries ++ [(key, value)])%list)).
Proof.
  intros Hpre Hname Hpost Hvalue.
  rewrite !replacePathVariables_last.
  apply replacePlaceholders_first_placeholder; assumption.
Qed.

Lemma replacePathVariables_first_placeholder_witness :
  replacePathVariables "/api/:id/:name"
    [("name", PVString "x"); ("other", PVNumber 7)]
  = String.append "/api/"
      (String.append "7"
         (replacePathVariables "/:name"
            [("name", PVString "x"); ("other", PVNumber 7)])).
Proof.
  apply (replacePathVariables_first_placeholder "/api/" "id" "/:name"
           [("name", PVString "x")] "other" (PVNumber 7));
    reflexivity.
Defined.

End PathVariablesCoverage.

(* ================================================================== *)
(** * [request]: further properties *)
(* ================================================================== *)

Module RequestCoverage.
Import PathVariables Js Effects Orchestrator Observations RequestFacts.
Import Scenarios.

#[local] Arguments gt : simpl never.
#[local] Arguments dispatched : simpl never.
#[local] Arguments or_else : simpl never.

(** ** One run of the body *)

Lemma tryBlock_inl settled envelope :
  tryBlock settled = inl envelope ->
  exists response,
    settled = AxiosFulfilled response /\ status response = 200
    /\ envelope = Success (body_data (data response)).
Proof.
  destruct settled as [response | error]; simpl; [| discriminate].
  destruct (status response =? 200) eqn:Hstatus; [| discriminate].
  intros [= <-]. exists response. apply Z.eqb_eq in Hstatus. auto.
Qed.

Lemma dispatched_sameRequest args token : sameRequest args (dispatched args token).
Proof.
  unfold sameRequest, dispatched.
  destruct token, (ignoreAuth args); simpl; repeat split; reflexivity.
Qed.

Lemma request_body_shape env args w :
  exists evs,
    history (request_body env args w).2 = history w ++ evs
    /\ dispatches evs = [dispatched args (stored w)]
    /\ (length (tokensStored evs) <= length (refreshCalls evs) <= 1)%nat
    /\ match (request_body env args w).1 with
       | Retry => length (tokensStored evs) = 1%nat /\ notifications evs = []
       | Return o => tokensStored evs = [] /\ settles args evs o
       end.
Proof.
  unfold settles.
  body_leaves env args w; unfold refreshCall, fixedOutcome, failureOutcome;
    trace_leaf args; destruct (throwError args) eqn:Hthrow;
    (eexists; split; [reflexivity |]; split; [reflexivity |]; simpl;
     split; [lia |]).
  all: try (apply tryBlock_inl in Htry as (response & Hanswer & Hstatus & ->)).
  all: repeat split; intros; try discriminate; try reflexivity;
    try lia; eauto.
  all: match goal with
       | H : Resolved (Success _) = Resolved (Success _) |- _ =>
         injection H as <-
       | _ => idtac
       end.
  all: try (rewrite Hanswer; eauto).
  all: match goal with
       | H : Resolved _ = Resolved ?r |- exists d, ?r = Success d =>
         injection H as <-; eauto
       end.
Qed.


Lemma tokensStored_app h1 h2 :
  tokensStored (h1 ++ h2) = tokensStored h1 ++ tokensStored h2.
Proof. apply omap_app. Qed.

Lemma notifications_app h1 h2 :
  notifications (h1 ++ h2) = notifications h1 ++ notifications h2.
Proof. apply omap_app. Qed.

(** A run that retries shows nothing, so that it changes nothing to how the
    rest of the call settles. *)
Lemma settles_after_retry args evs1 evs2 o :
  notifications evs1 = [] -> settles args evs2 o -> settles args (evs1 ++ evs2) o.
Proof.
  intros Hquiet (Hone & Hsilent & Hresolve & Hthrow & Hsuccess).
  unfold settles. rewrite notifications_app, Hquiet. simpl.
  split; [exact Hone |]. split; [exact Hsilent |].
  split; [exact Hresolve |]. split; [exact Hthrow |].
  intros d Hd. destruct (Hsuccess d Hd) as (Hnone & sent & response & Hlast & Hrest).
  split; [exact Hnone |]. exists sent, response. split; [| exact Hrest].
  destruct evs2 as [| e evs2]; [discriminate |].
  rewrite last_app, Hlast. reflexivity.
Qed.

(** ** A whole call *)

Lemma request_call_shape env args fuel :
  forall w o w', request env fuel args w = Some (o, w') ->
  exists evs,
    history w' = history w ++ evs
    /\ length (dispatches evs) = S (length (tokensStored evs))
    /\ (length (tokensStored evs) <= length (refreshCalls evs)
        <= length (dispatches evs))%nat
    /\ Forall (sameRequest args) (dispatches evs)
    /\ settles args evs o.
Proof.
  induction fuel as [| fuel IH]; intros w o w' Hrun; [discriminate |].
  rewrite request_S in Hrun.
  destruct (request_body_shape env args w) as (evs1 & Hh1 & Hd1 & Hr1 & Hend).
  destruct (request_body env args w) as [[o1 |] w1]; simpl in Hh1, Hend.
  - injection Hrun as <- <-. destruct Hend as [Hstored Hsettles].
    exists evs1. rewrite Hd1, Hstored. simpl.
    split; [exact Hh1 |]. split; [reflexivity |]. split; [lia |].
    split; [| exact Hsettles].
    repeat constructor; apply dispatched_sameRequest.
  - destruct (IH _ _ _ Hrun) as (evs2 & Hh2 & Hd2 & Hr2 & Hsame & Hsettles).
    destruct Hend as [Hstored Hquiet].
    exists (evs1 ++ evs2).
    rewrite dispatches_app, refreshCalls_app, tokensStored_app, !length_app,
      Hd1, Hd2, Hstored.
    split; [rewrite Hh2, Hh1, app_assoc; reflexivity |].
    split; [simpl; lia |]. split; [simpl in *; lia |].
    split; [| apply settles_after_retry; assumption].
    constructor; [apply dispatched_sameRequest | exact Hsame].
Qed.


(** ** The expiry predicates *)

(** X4. For a stored record [isTokenExpired] answers [true] exactly when the
    clock has passed the earlier of the two expiry times: a token whose
    refresh part is over counts as expired even if its access part is not,
    and a token is still good at the very millisecond it expires. *)
Theorem isTokenExpired_earlier_expiry env t w :
  isTokenExpired env (TokenObject t) w
  = (bool_decide (Z.min (accessExpiredAt t) (refreshExpiredAt t)
                  < clock env (history w)),
     record (DateNow (clock env (history w))) w).
Proof.
  unfold isTokenExpired, Date_now, bind, ret. simpl. f_equal.
  unfold gt.
  destruct (Z.ltb_spec (accessExpiredAt t) (clock env (history w)));
    destruct (Z.ltb_spec (refreshExpiredAt t) (clock env (history w)));
    simpl; symmetry;
    first [apply bool_decide_eq_true | apply bool_decide_eq_false]; lia.
Qed.

(** ** Failures outside the refresh protocol *)

(** X5. A transport failure that is not a response of status 401 (no
    response at all, or another status) is reported the generic way at once:
    the notifier gets the server's message or "请求失败" unless [silentError]
    is set, the call rejects with the transport error when [throwError] is
    set and otherwise resolves with its code and message.  The store is
    neither read again nor written, the clock is not read, the refresh
    endpoint is not called. *)
Theorem other_failure_reported_generically env args w error :
  transportAnswer env args w = AxiosRejected error ->
  is401 error = false ->
  forall fuel,
    request env (S fuel) args w =
    Some (if throwError args then Rejected error
          else Resolved (Failure (code error) (message error)),
          {| storage := storage w;
             history := history w ++
               [GetItem (storage w);
                Axios (dispatched args (stored w)) (AxiosRejected error)]
               ++ (if silentError args then []
                   else [ShowError (serverMessage error)]) |}).
Proof.
  intros Hanswer H401 fuel.
  rewrite request_S, request_body_eq, Hanswer. simpl.
  rewrite catchBlock_eq, H401. simpl.
  unfold extend, afterDispatch, failureOutcome, failureNotice, notice.
  rewrite Hanswer. simpl. rewrite <- app_assoc. reflexivity.
Qed.

Lemma other_failure_reported_generically_witness :
  request envOffline 1 (descriptor false false true) (start (Some lapsed)) =
  Some (Rejected networkError,
        {| storage := Some lapsed;
           history :=
             [GetItem (Some lapsed);
              Axios (dispatched (descriptor false false true) (TokenObject lapsed))
                (AxiosRejected networkError);
              ShowError "请求失败"] |}).
Proof.
  apply (other_failure_reported_generically envOffline
           (descriptor false false true) (start (Some lapsed)) networkError);
    reflexivity.
Defined.

(** X6. A response whose status is not 200, be it 201, 204 or a 401 that the
    transport let through, is a failure: the error is a new [Error] whose
    message is the [errorMessage] of the body, or "请求失败" when the body has
    none; it carries no response, so the refresh protocol is not entered, the
    notifier is given "请求失败" and not the message of the body, and the
    envelope has no error code. *)
Theorem non_200_response_fails env args w response :
  transportAnswer env args w = AxiosFulfilled response ->
  status response <> 200 ->
  forall fuel,
    request env (S fuel) args w =
    Some (if throwError args
          then Rejected
                 (Error_ (or_else (body_errorMessage (data response)) "请求失败"))
          else Resolved
                 (Failure JUndefined
                    (JString (or_else (body_errorMessage (data response))
                                "请求失败"))),
          {| storage := storage w;
             history := history w ++
               [GetItem (storage w);
                Axios (dispatched args (stored w)) (AxiosFulfilled response)]
               ++ (if silentError args then [] else [ShowError "请求失败"]) |}).
Proof.
  intros Hanswer Hstatus fuel.
  rewrite request_S, request_body_eq, Hanswer. simpl.
  apply Z.eqb_neq in Hstatus. rewrite Hstatus.
  rewrite catchBlock_eq. simpl.
  unfold extend, afterDispatch, failureOutcome, failureNotice, notice,
    serverMessage.
  rewrite Hanswer. simpl. rewrite <- app_assoc. reflexivity.
Qed.

Lemma non_200_response_fails_witness :
  request envCreated 1 (descriptor false false false) (start (Some fresh)) =
  Some (Resolved (Failure JUndefined (JString "created")),
        {| storage := Some fresh;
           history :=
             [GetItem (Some fresh);
              Axios (dispatched (descriptor false false false) (TokenObject fresh))
                (AxiosFulfilled created);
              ShowError "请求失败"] |}).
Proof.
  apply (non_200_response_fails envCreated (descriptor false false false)
           (start (Some fresh)) created); [reflexivity | discriminate].
Defined.

(** X7. A 401 while the store is empty never starts a refresh, whatever the
    clock reads: [getToken] answers [{}], for which [isTokenExpired]
    compares the clock with [undefined] and answers [false].  The failure is
    reported the generic way and the store stays empty. *)
Theorem unauthorized_with_empty_store env args w error :
  storage w = None ->
  receives401 env args w error ->
  exists now, forall fuel,
    request env (S fuel) args w =
    Some (if throwError args then Rejected error
          else Resolved (Failure (code error) (message error)),
          {| storage := None;
             history := history w ++
               [GetItem None;
                Axios (dispatched args EmptyObject) (AxiosRejected error)]
               ++ (if ignoreAuth args then [] else [GetItem None; DateNow now])
               ++ (if silentError args then []
                   else [ShowError (serverMessage error)]) |}).
Proof.
  intros Hstored [Hanswer H401].
  destruct w as [st h]; simpl in Hstored; subst st.
  set (w := {| storage := None; history := h |}) in *.
  set (w1 := {| storage := None;
                history := h ++
                  [GetItem None;
                   Axios (dispatched args EmptyObject) (AxiosRejected error)] |}).
  assert (Hw1 : afterDispatch env args w = w1)
    by (unfold afterDispatch; rewrite Hanswer; reflexivity).
  exists (firstReading env w1). intros fuel.
  rewrite request_S, request_body_eq, Hanswer. simpl.
  rewrite catchBlock_eq, H401, Hw1.
  destruct (ignoreAuth args); cbn [negb andb].
  - unfold extend, failureOutcome, failureNotice, notice.
    simpl. rewrite <- app_assoc. reflexivity.
  - rewrite refreshProtocol_eq.
    assert (Htok : tokenExpired env w1 = false) by reflexivity.
    rewrite Htok.
    unfold extend, failureOutcome, failureNotice, notice. simpl.
    rewrite <- !app_assoc. reflexivity.
Qed.

Lemma unauthorized_with_empty_store_witness :
  exists now, forall fuel,
    request envUnauthorized (S fuel) (descriptor false true false) (start None) =
    Some (Resolved (Failure (JString "ERR_BAD_REQUEST")
                      (JString "Request failed with status code 401")),
          {| storage := None;
             history :=
               [GetItem None;
                Axios (dispatched (descriptor false true false) EmptyObject)
                  (AxiosRejected unauthorized);
                GetItem None; DateNow now] |}).
Proof.
  apply (unauthorized_with_empty_store envUnauthorized
           (descriptor false true false) (start None) unauthorized).
  - reflexivity.
  - split; reflexivity.
Defined.


(** ** The two ways a refresh can fail *)

Section RefreshAttempt.
Variables (env : Env) (args : RequestConfig) (w : World).
Variables (tok : Token) (error : JsError).
Hypothesis Hauth : ignoreAuth args = false.
Hypothesis Hstored : storage w = Some tok.
Hypothesis H401 : receives401 env args w error.
Hypothesis Hexpired : tokenExpired env (afterDispatch env args w) = true.
Hypothesis Hrefresh : refreshTokenExpired env (afterDispatch env args w) = false.

(** The run up to the call of the refresh endpoint. *)
Lemma refresh_attempt :
  request_body env args w =
    match refreshAnswer env (afterDispatch env args w) with
    | RefreshFulfilled (Some newToken) =>
      if success newToken then
        (Retry,
         {| storage := Some (reply_data newToken);
            history := history w ++
              [GetItem (Some tok);
               Axios (dispatched args (TokenObject tok)) (AxiosRejected error);
               GetItem (Some tok);
               DateNow (firstReading env (afterDispatch env args w));
               DateNow (secondReading env (afterDispatch env args w));
               RefreshToken (Some (refresh tok))
                 (RefreshFulfilled (Some newToken));
               SetItem (reply_data newToken)] |})
      else
        (Return (failureOutcome args error),
         {| storage := Some tok;
            history := history w ++
              [GetItem (Some tok);
               Axios (dispatched args (TokenObject tok)) (AxiosRejected error);
               GetItem (Some tok);
               DateNow (firstReading env (afterDispatch env args w));
               DateNow (secondReading env (afterDispatch env args w));
               RefreshToken (Some (refresh tok))
                 (RefreshFulfilled (Some newToken))]
              ++ failureNotice args error |})
    | RefreshFulfilled None =>
      (Return (failureOutcome args error),
       {| storage := Some tok;
          history := history w ++
            [GetItem (Some tok);
             Axios (dispatched args (TokenObject tok)) (AxiosRejected error);
             GetItem (Some tok);
             DateNow (firstReading env (afterDispatch env args w));
             DateNow (secondReading env (afterDispatch env args w));
             RefreshToken (Some (refresh tok)) (RefreshFulfilled None)]
            ++ failureNotice args error |})
    | RefreshRejected refreshError =>
      (Return (fixedOutcome args refreshError "刷新令牌失败"),
       {| storage := None;
          history := history w ++
            [GetItem (Some tok);
             Axios (dispatched args (TokenObject tok)) (AxiosRejected error);
             GetItem (Some tok);
             DateNow (firstReading env (afterDispatch env args w));
             DateNow (secondReading env (afterDispatch env args w));
             RefreshToken (Some (refresh tok)) (RefreshRejected refreshError);
             RemoveItem]
            ++ notice args "刷新令牌失败，请重新登录" |})
    end.
Proof.
  rewrite (request_body_401 env args w error Hauth H401).
  rewrite refreshProtocol_eq, Hexpired, Hrefresh.
  destruct H401 as [Hanswer _].
  unfold refreshCall.
  destruct (refreshAnswer env (afterDispatch env args w))
    as [[newToken |] | refreshError];
    [destruct (success newToken) | |];
    unfold extend, beforeRefresh; simpl;
    change (stored (afterDispatch env args w)) with (stored w);
    rewrite ?(stored_Some w tok Hstored), ?Hstored, ?Hanswer;
    cbn [app token_refresh]; rewrite <- ?app_assoc; reflexivity.
Qed.

End RefreshAttempt.

(** X8. When the refresh endpoint resolves with something that
    [newToken && newToken.success] does not accept ([success] false, or a
    falsy value), the call does not retry and the stored token stays: the 401
    of the transport is reported the generic way, after one call of the
    refresh endpoint with the stored refresh value. *)
Theorem declined_refresh_reported_generically env args w tok error reply :
  ignoreAuth args = false ->
  storage w = Some tok ->
  receives401 env args w error ->
  tokenExpired env (afterDispatch env args w) = true ->
  refreshTokenExpired env (afterDispatch env args w) = false ->
  refreshAnswer env (afterDispatch env args w) = RefreshFulfilled reply ->
  declined reply = true ->
  exists now1 now2, forall fuel,
    request env (S fuel) args w =
    Some (if throwError args then Rejected error
          else Resolved (Failure (code error) (message error)),
          {| storage := Some tok;
             history := history w ++
               [GetItem (Some tok);
                Axios (dispatched args (TokenObject tok)) (AxiosRejected error);
                GetItem (Some tok); DateNow now1; DateNow now2;
                RefreshToken (Some (refresh tok)) (RefreshFulfilled reply)]
               ++ (if silentError args then []
                   else [ShowError (serverMessage error)]) |}).
Proof.
  intros Hauth Hstored H401 Hexpired Hrefresh Hanswer Hdeclined.
  exists (firstReading env (afterDispatch env args w)),
    (secondReading env (afterDispatch env args w)).
  intros fuel.
  rewrite request_S,
    (refresh_attempt env args w tok error Hauth Hstored H401 Hexpired Hrefresh),
    Hanswer.
  destruct reply as [newToken |]; simpl in Hdeclined.
  - apply negb_true_iff in Hdeclined. rewrite Hdeclined. reflexivity.
  - reflexivity.
Qed.

Lemma declined_refresh_reported_generically_witness :
  exists now1 now2, forall fuel,
    request envRefreshDeclined (S fuel) (descriptor false false true)
      (start (Some stale)) =
    Some (Rejected unauthorized,
          {| storage := Some stale;
             history :=
               [GetItem (Some stale);
                Axios (dispatched (descriptor false false true) (TokenObject stale))
                  (AxiosRejected unauthorized);
                GetItem (Some stale); DateNow now1; DateNow now2;
                RefreshToken (Some "r-stale")
                  (RefreshFulfilled
                     (Some {| success := false; reply_data := stale |}));
                ShowError "unauthorized"] |}).
Proof.
  apply (declined_refresh_reported_generically envRefreshDeclined
           (descriptor false false true) (start (Some stale)) stale unauthorized
           (Some {| success := false; reply_data := stale |}));
    try reflexivity.
  split; reflexivity.
Defined.

(** X9. When the promise of the refresh endpoint rejects, the call ends
    there: the stored token is removed, the notifier is given
    "刷新令牌失败，请重新登录" unless [silentError] is set, and the call rejects
    with the reason of that rejection when [throwError] is set and otherwise
    resolves with [errorCode] 401 and [errorMessage] "刷新令牌失败".  The
    error of the transport is not reported. *)
Theorem rejected_refresh_removes_token env args w tok error refreshError :
  ignoreAuth args = false ->
  storage w = Some tok ->
  receives401 env args w error ->
  tokenExpired env (afterDispatch env args w) = true ->
  refreshTokenExpired env (afterDispatch env args w) = false ->
  refreshAnswer env (afterDispatch env args w) = RefreshRejected refreshError ->
  exists now1 now2, forall fuel,
    request env (S fuel) args w =
    Some (if throwError args then Rejected refreshError
          else Resolved (Failure (JNumber 401) (JString "刷新令牌失败")),
          {| storage := None;
             history := history w ++
               [GetItem (Some tok);
                Axios (dispatched args (TokenObject tok)) (AxiosRejected error);
                GetItem (Some tok); DateNow now1; DateNow now2;
                RefreshToken (Some (refresh tok)) (RefreshRejected refreshError);
                RemoveItem]
               ++ (if silentError args then []
                   else [ShowError "刷新令牌失败，请重新登录"]) |}).
Proof.
  intros Hauth Hstored H401 Hexpired Hrefresh Hanswer.
  exists (firstReading env (afterDispatch env args w)),
    (secondReading env (afterDispatch env args w)).
  intros fuel.
  rewrite request_S,
    (refresh_attempt env args w tok error Hauth Hstored H401 Hexpired Hrefresh),
    Hanswer.
  reflexivity.
Qed.

Lemma rejected_refresh_removes_token_witness :
  exists now1 now2, forall fuel,
    request envRefreshRejected (S fuel) (descriptor false false false)
      (start (Some stale)) =
    Some (Resolved (Failure (JNumber 401) (JString "刷新令牌失败")),
          {| storage := None;
             history :=
               [GetItem (Some stale);
                Axios (dispatched (descriptor false false false) (TokenObject stale))
                  (AxiosRejected unauthorized);
                GetItem (Some stale); DateNow now1; DateNow now2;
                RefreshToken (Some "r-stale") (RefreshRejected networkError);
                RemoveItem;
                ShowError "刷新令牌失败，请重新登录"] |}).
Proof.
  apply (rejected_refresh_removes_token envRefreshRejected
           (descriptor false false false) (start (Some stale)) stale unauthorized
           networkError);
    try reflexivity.
  split; reflexivity.
Defined.

(** ** What is dispatched *)

(** X10. The configuration handed to the transport is the caller's except for
    [Authorization]: the query parameters, every option other than [headers]
    and every other header are passed on as they are; and with [ignoreAuth]
    unset the [Authorization] header is set from the stored token, replacing
    one the caller may have supplied. *)
Theorem dispatched_keeps_caller_options args token :
  sent_params (dispatched args token) = params args
  /\ others (sent_config (dispatched args token)) = others (config args)
  /\ (forall name : string, name <> "Authorization" ->
      default ∅ (headers (sent_config (dispatched args token))) !! name
      = default ∅ (headers (config args)) !! name)
  /\ (ignoreAuth args = false ->
      authorization (sent_config (dispatched args token))
      = Some ("Bearer " +:+ interpolate (token_access token))).
Proof.
  unfold dispatched, authorization.
  destruct token, (ignoreAuth args); simpl; repeat split; intros;
    try discriminate; try reflexivity;
    first [apply lookup_insert_ne; congruence | apply lookup_insert_eq].
Qed.

(** ** A whole call, retries included *)

(** X11. A call that ends has dispatched once more than it has stored a
    token: every retry follows exactly one successful refresh.  The refresh
    endpoint was called at least once per stored token and at most once per
    dispatch, and nothing on record before the call was altered. *)
Theorem call_dispatches_once_per_stored_token env args fuel w o w' :
  request env fuel args w = Some (o, w') ->
  history w' = history w ++ since w w'
  /\ length (dispatches (since w w')) = S (length (tokensStored (since w w')))
  /\ (length (tokensStored (since w w')) <= length (refreshCalls (since w w'))
      <= length (dispatches (since w w')))%nat.
Proof.
  intros Hrun.
  destruct (request_call_shape env args fuel w o w' Hrun)
    as (evs & Hh & Hcount & Hcalls & _).
  rewrite (since_app w w' evs Hh). auto.
Qed.

Lemma call_dispatches_once_per_stored_token_witness :
  exists o w',
    request envStaleTwice 4 (descriptor false false false)
      (start (Some halfLapsed)) = Some (o, w')
    /\ history w' = history (start (Some halfLapsed))
                     ++ since (start (Some halfLapsed)) w'
    /\ length (dispatches (since (start (Some halfLapsed)) w'))
       = S (length (tokensStored (since (start (Some halfLapsed)) w')))
    /\ (length (tokensStored (since (start (Some halfLapsed)) w'))
        <= length (refreshCalls (since (start (Some halfLapsed)) w'))
        <= length (dispatches (since (start (Some halfLapsed)) w')))%nat.
Proof.
  destruct (request envStaleTwice 4 (descriptor false false false)
              (start (Some halfLapsed))) as [[o w'] |] eqn:Hrun;
    [| vm_compute in Hrun; discriminate].
  exists o, w'. split; [reflexivity |].
  exact (call_dispatches_once_per_stored_token envStaleTwice
           (descriptor false false false) 4 (start (Some halfLapsed)) o w' Hrun).
Defined.

(** X12. Over a whole call the notifier is called at most once, and not at
    all when [silentError] is set: a run that retries shows nothing, only the
    run that ends the call may. *)
Theorem call_notifies_at_most_once env args fuel w o w' :
  request env fuel args w = Some (o, w') ->
  (length (notifications (since w w')) <= 1)%nat
  /\ (silentError args = true -> notifications (since w w') = []).
Proof.
  intros Hrun.
  destruct (request_call_shape env args fuel w o w' Hrun)
    as (evs & Hh & _ & _ & _ & Hone & Hsilent & _).
  rewrite (since_app w w' evs Hh). auto.
Qed.

Lemma call_notifies_at_most_once_witness :
  exists o w',
    request envStaleTwice 4 (descriptor false true false)
      (start (Some halfLapsed)) = Some (o, w')
    /\ (length (notifications (since (start (Some halfLapsed)) w')) <= 1)%nat
    /\ (silentError (descriptor false true false) = true ->
        notifications (since (start (Some halfLapsed)) w') = []).
Proof.
  destruct (request envStaleTwice 4 (descriptor false true false)
              (start (Some halfLapsed))) as [[o w'] |] eqn:Hrun;
    [| vm_compute in Hrun; discriminate].
  exists o, w'. split; [reflexivity |].
  exact (call_notifies_at_most_once envStaleTwice
           (descriptor false true false) 4 (start (Some halfLapsed)) o w' Hrun).
Defined.

(** X13. [throwError] decides between the two ways of failing: without it a
    call that ends always resolves, with an envelope, and never rejects; with
    it a call never resolves with a failure envelope, what it resolves with
    is a success. *)
Theorem throwError_decides_how_a_call_fails env args fuel w o w' :
  request env fuel args w = Some (o, w') ->
  if throwError args
  then forall r, o = Resolved r -> exists d, r = Success d
  else exists r, o = Resolved r.
Proof.
  intros Hrun.
  destruct (request_call_shape env args fuel w o w' Hrun)
    as (evs & _ & _ & _ & _ & _ & _ & Hresolve & Hthrow & _).
  destruct (throwError args); auto.
Qed.

Lemma throwError_decides_how_a_call_fails_witness :
  exists o w',
    request envUnauthorized 2 (descriptor false false false)
      (start (Some stale)) = Some (o, w')
    /\ exists r, o = Resolved r.
Proof.
  destruct (request envUnauthorized 2 (descriptor false false false)
              (start (Some stale))) as [[o w'] |] eqn:Hrun;
    [| vm_compute in Hrun; discriminate].
  exists o, w'. split; [reflexivity |].
  exact (throwError_decides_how_a_call_fails envUnauthorized
           (descriptor false false false) 2 (start (Some stale)) o w' Hrun).
Defined.

(** X14. Every dispatch of a call, the retried ones included, goes to the
    same address with the same query parameters and the same options: a
    retry differs from the first attempt in its headers only. *)
Theorem call_repeats_the_same_request env args fuel w o w' :
  request env fuel args w = Some (o, w') ->
  Forall (sameRequest args) (dispatches (since w w')).
Proof.
  intros Hrun.
  destruct (request_call_shape env args fuel w o w' Hrun)
    as (evs & Hh & _ & _ & Hsame & _).
  rewrite (since_app w w' evs Hh). exact Hsame.
Qed.

Lemma call_repeats_the_same_request_witness :
  exists o w',
    request envStaleTwice 4 (descriptor false false false)
      (start (Some halfLapsed)) = Some (o, w')
    /\ Forall (sameRequest (descriptor false false false))
         (dispatches (since (start (Some halfLapsed)) w')).
Proof.
  destruct (request envStaleTwice 4 (descriptor false false false)
              (start (Some halfLapsed))) as [[o w'] |] eqn:Hrun;
    [| vm_compute in Hrun; discriminate].
  exists o, w'. split; [reflexivity |].
  exact (call_repeats_the_same_request envStaleTwice
           (descriptor false false false) 4 (start (Some halfLapsed)) o w' Hrun).
Defined.

(** X15. A call resolves with success only on a 200: its last interaction is
    then a dispatch that the transport fulfilled with status 200, the [data]
    of the envelope is the [data] of that response body, and the notifier was
    never called during the call, whatever retries came before. *)
Theorem success_comes_from_a_200 env args fuel w d w' :
  request env fuel args w = Some (Resolved (Success d), w') ->
  notifications (since w w') = []
  /\ exists sent response,
      last (history w') = Some (Axios sent (AxiosFulfilled response))
      /\ status response = 200 /\ d = body_data (data response).
Proof.
  intros Hrun.
  destruct (request_call_shape env args fuel w _ w' Hrun)
    as (evs & Hh & _ & _ & _ & _ & _ & _ & _ & Hsuccess).
  destruct (Hsuccess d eq_refl) as (Hquiet & sent & response & Hlast & Hrest).
  rewrite (since_app w w' evs Hh). split; [exact Hquiet |].
  exists sent, response. split; [| exact Hrest].
  destruct evs as [| e evs]; [discriminate |].
  rewrite Hh, last_app, Hlast. reflexivity.
Qed.

Lemma success_comes_from_a_200_witness :
  exists w',
    request envStaleTwice 4 (descriptor false false false)
      (start (Some halfLapsed)) = Some (Resolved (Success (JString "payload")), w')
    /\ notifications (since (start (Some halfLapsed)) w') = []
    /\ exists sent response,
        last (history w') = Some (Axios sent (AxiosFulfilled response))
        /\ status response = 200
        /\ JString "payload" = body_data (data response).
Proof.
  destruct (request envStaleTwice 4 (descriptor false false false)
              (start (Some halfLapsed))) as [[o w'] |] eqn:Hrun;
    vm_compute in Hrun; [| discriminate].
  injection Hrun as <- <-.
  eexists. split; [reflexivity |].
  apply (success_comes_from_a_200 envStaleTwice (descriptor false false false)
           4 (start (Some halfLapsed))).
  vm_compute. reflexivity.
Defined.

(** ** Writes to the store over a whole call *)

Lemma storeWrites_app h1 h2 :
  storeWrites (h1 ++ h2) = storeWrites h1 ++ storeWrites h2.
Proof. apply List.filter_app. Qed.

Lemma request_body_writes env args w :
  exists evs,
    history (request_body env args w).2 = history w ++ evs
    /\ match (request_body env args w).1 with
       | Retry =>
         exists t, storeWrites evs = [SetItem t] /\ tokensStored evs = [t]
                   /\ storage (request_body env args w).2 = Some t
       | Return o =>
         tokensStored evs = []
         /\ ((storeWrites evs = []
              /\ storage (request_body env args w).2 = storage w)
             \/ (storeWrites evs = [RemoveItem]
                 /\ storage (request_body env args w).2 = None
                 /\ forall d, o <> Resolved (Success d)))
       end.
Proof.
  body_leaves env args w; unfold refreshCall, fixedOutcome, failureOutcome;
    trace_leaf args; destruct (throwError args);
    (eexists; split; [reflexivity |]); simpl;
    first [ solve [eexists; auto]
          | split; [reflexivity |];
            first [ left; split; reflexivity
                  | right; repeat split; intros; discriminate ] ].
Qed.

(** X16. The writes of a call to the store are the tokens of its successful
    refreshes, in order, followed by at most one removal.  Without removal
    the store ends with the token stored last (or as it was, if none was
    stored); a call that removed the token did so in its last run, leaves
    the store empty and did not resolve with success. *)
Theorem call_removes_token_only_at_its_end env args fuel w o w' :
  request env fuel args w = Some (o, w') ->
  (storeWrites (since w w') = SetItem <$> tokensStored (since w w')
   /\ storage w' = match last (tokensStored (since w w')) with
                   | Some t => Some t
                   | None => storage w
                   end)
  \/ (storeWrites (since w w')
      = (SetItem <$> tokensStored (since w w')) ++ [RemoveItem]
      /\ storage w' = None
      /\ forall d, o <> Resolved (Success d)).
Proof.
  revert w. induction fuel as [| fuel IH]; intros w Hrun; [discriminate |].
  rewrite request_S in Hrun.
  destruct (request_body_writes env args w) as (evs1 & Hh1 & Hend).
  destruct (request_body env args w) as [[o1 |] w1]; simpl in Hh1, Hend.
  - injection Hrun as <- <-. rewrite (since_app w w1 evs1 Hh1).
    destruct Hend as [Hnone [[Hw Hs] | (Hw & Hs & Hfail)]];
      rewrite Hnone, Hw; simpl; [left | right]; auto.
  - destruct Hend as (t & Hw1 & Ht1 & Hs1).
    specialize (IH w1 Hrun).
    assert (Hlater : exists evs2, history w' = history w1 ++ evs2).
    { destruct (request_call_shape env args fuel w1 o w' Hrun) as (evs2 & Hh2 & _).
      eauto. }
    destruct Hlater as (evs2 & Hh2).
    rewrite (since_app w1 w' evs2 Hh2) in IH.
    assert (Hh : history w' = history w ++ (evs1 ++ evs2))
      by (rewrite Hh2, Hh1, app_assoc; reflexivity).
    rewrite (since_app w w' _ Hh), storeWrites_app, tokensStored_app, Hw1, Ht1.
    simpl.
    destruct IH as [[Hw Hs] | (Hw & Hs & Hfail)]; rewrite Hw; [left | right].
    + split; [reflexivity |]. rewrite Hs, Hs1.
      destruct (tokensStored evs2) as [| t2 ts]; simpl; [reflexivity |].
      destruct (last (t2 :: ts)) eqn:Hlast; [reflexivity |].
      apply last_None in Hlast. discriminate.
    + auto.
Qed.

Lemma call_removes_token_only_at_its_end_witness :
  exists o w',
    request envRefreshRejected 2 (descriptor false false false)
      (start (Some stale)) = Some (o, w')
    /\ ((storeWrites (since (start (Some stale)) w')
         = SetItem <$> tokensStored (since (start (Some stale)) w')
         /\ storage w' = match last (tokensStored (since (start (Some stale)) w')) with
                         | Some t => Some t
                         | None => storage (start (Some stale))
                         end)
        \/ (storeWrites (since (start (Some stale)) w')
            = (SetItem <$> tokensStored (since (start (Some stale)) w'))
              ++ [RemoveItem]
            /\ storage w' = None
            /\ forall d, o <> Resolved (Success d))).
Proof.
  destruct (request envRefreshRejected 2 (descriptor false false false)
              (start (Some stale))) as [[o w'] |] eqn:Hrun;
    [| vm_compute in Hrun; discriminate].
  exists o, w'. split; [reflexivity |].
  exact (call_removes_token_only_at_its_end envRefreshRejected
           (descriptor false false false) 2 (start (Some stale)) o w' Hrun).
Defined.

End RequestCoverage.
